(** * VirtuaPlant: tag registry, process state store and plant physics

    A shallow embedding of the Python sources

      - [sim/common/modbus_bridge.py]  (class [ModbusBridge])
      - [sim/common/physics.py]        (classes [BottleFillingPhysics],
                                        [OilRefineryPhysics])
      - [tools/validate_map.py]        (function [validate_modbus_map])

    followed by the properties of these definitions.

    Conventions of the embedding.
      - A Python [dict] read by key is a [gmap]; a dict or list that is
        iterated in order is a [list].
      - A function that may raise returns a [result]; a method that mutates
        [self] takes the object and returns the object after the call beside
        its result, so that what a failing call leaves behind is visible.
      - Console output ([print]) is not part of the model.
      - Python numbers of the physics engines are kept abstract behind the
        class [Num], with an exact instance (rationals) and a binary64
        instance (the machine floats CPython computes with). *)

From Stdlib Require Import ZArith QArith Lqa Uint63 Floats Ascii String List Lia.
From stdpp Require Import gmap strings list pretty.

Set Warnings "-inexact-float".

(* ===================================================================== *)
(** * Python values, exceptions, and the builtins the sources call       *)
(* ===================================================================== *)

Module Py.

(** The values that travel through the register tables: booleans and
    integers ([True]/[False], [0], [1], register words). *)
Inductive Value :=
| VBool (b : bool)
| VInt (n : Z).

(** Python truthiness, as used by [if x:] and [x and y]. *)
Definition truthy (v : Value) : bool :=
  match v with
  | VBool b => b
  | VInt n => negb (n =? 0)%Z
  end.

(** The exceptions the modelled code raises. The four [ValueError]s of the
    sources are told apart by their message. *)
Inductive value_error :=
| UnknownTag (tag_name : string)        (* "Unknown tag: {tag_name}" *)
| UnknownTable (table : string)         (* "Unknown table: {table}" *)
| CannotWriteTable (table : string)     (* "Cannot write to table: {table}" *)
| InvalidLiteral (text : string).       (* int() on text that is no integer *)

Inductive exn :=
| FileNotFoundError (path : string)
| KeyError (key : string)
| ValueError (why : value_error)
| IndexError
| SubscriptError
| ZeroDivisionError
| OverflowError
| SystemExit (code : Z).

Inductive result (A : Type) :=
| Ok (a : A)
| Raise (e : exn).
Arguments Ok {A} a.
Arguments Raise {A} e.

#[global] Instance result_ret : MRet result := fun A a => Ok a.
#[global] Instance result_bind : MBind result :=
  fun A B f r => match r with Ok a => f a | Raise e => Raise e end.

Definition is_ok {A} (r : result A) : bool :=
  match r with Ok _ => true | Raise _ => false end.

(** [s.startswith(p)] *)
Definition startswith (s p : string) : bool := String.prefix p s.

(** [s.endswith("*")] and [s[:-1]], the two string operations of the
    validator's pattern match. *)
Fixpoint endswith_star (s : string) : bool :=
  match s with
  | EmptyString => false
  | String c EmptyString => Ascii.eqb c "*"%char
  | String _ rest => endswith_star rest
  end.

Fixpoint drop_last (s : string) : string :=
  match s with
  | EmptyString => EmptyString
  | String _ EmptyString => EmptyString
  | String c rest => String c (drop_last rest)
  end.

(** A row of [csv.DictReader]: column name to cell text. Every row of a
    file has the header's columns. *)
Abbreviation Row := (gmap string string).

(** [row[key]] *)
Definition getitem (row : Row) (key : string) : result string :=
  match row !! key with
  | Some cell => Ok cell
  | None => Raise (KeyError key)
  end.

(** [row.get(key, "")] *)
Definition get_or_empty (row : Row) (key : string) : string :=
  default EmptyString (row !! key).

(** A reading of plain decimal numerals: an optional minus sign and ASCII
    digits. Python's [int(text)] agrees with it on such text; it stands in
    for the builtin wherever a concrete map file is evaluated. *)
Definition digit_of (c : ascii) : option Z :=
  let n := Z.of_nat (nat_of_ascii c) in
  if ((48 <=? n) && (n <=? 57))%Z then Some (n - 48)%Z else None.

Fixpoint digits (acc : Z) (s : string) : option Z :=
  match s with
  | EmptyString => Some acc
  | String c rest =>
      match digit_of c with
      | Some d => digits (10 * acc + d)%Z rest
      | None => None
      end
  end.

Definition decimal (s : string) : option Z :=
  match s with
  | EmptyString => None
  | String "-"%char (String c rest) => Z.opp <$> digits 0 (String c rest)
  | String "-"%char EmptyString => None
  | _ => digits 0 s
  end.

(** In the same way, a reading of hexadecimal numerals with the prefix
    [0x], on which [int(text, 16)] agrees. *)
Definition hex_digit_of (c : ascii) : option Z :=
  let n := Z.of_nat (nat_of_ascii c) in
  if ((48 <=? n) && (n <=? 57))%Z then Some (n - 48)%Z
  else if ((97 <=? n) && (n <=? 102))%Z then Some (n - 87)%Z
  else if ((65 <=? n) && (n <=? 70))%Z then Some (n - 55)%Z
  else None.

Fixpoint hex_digits (acc : Z) (s : string) : option Z :=
  match s with
  | EmptyString => Some acc
  | String c rest =>
      match hex_digit_of c with
      | Some d => hex_digits (16 * acc + d)%Z rest
      | None => None
      end
  end.

Definition hexadecimal (s : string) : option Z :=
  match s with
  | String "0"%char (String "x"%char (String c rest)) =>
      hex_digits 0 (String c rest)
  | _ => None
  end.

End Py.
Import Py.

(* ===================================================================== *)
(** * sim/common/modbus_bridge.py                                        *)
(* ===================================================================== *)

Module Bridge.

(** One entry of [tag_mappings]: the dict built per CSV row. *)
Record Mapping := {
  m_type : string;
  m_table : string;
  m_address : Z;
  m_width : Z;
  m_units : string;
  m_desc : string;
  m_role : string
}.

(** The part of the CrossPLC IR document the bridge reads. The document is a
    JSON object; its entry [detailed_components] maps a component name to
    the component's data, which may hold [tags], whose [controller_tags]
    lists records with a [name]. A component is kept as [None] when it has
    no [tags] key and as the names of its controller tags otherwise. *)
Inductive ir_entry :=
| DetailedComponents (components : list (string * option (list string)))
| OtherEntry.

(** The files the bridge opens, by path. *)
Record Files := {
  csv_files : gmap string (list (gmap string string));
  json_files : gmap string (list (string * ir_entry))
}.

(** ** The register blocks

    [ModbusSequentialDataBlock(0, values)] of the pymodbus library: a flat
    list of cells starting at address 0. The bridge reads a cell with
    [getValues(address, 1)[0]] and writes one with
    [setValues(address, [value])].  Inside the block these read and replace
    the cell.  Outside the block [getValues] hands back nothing that can be
    subscripted, so the read raises ([SubscriptError]), and [setValues]
    refuses the address and leaves the block as it is; the bridge never
    looks at what [setValues] returns. *)
Definition in_block (block : list Value) (address : Z) : bool :=
  ((0 <=? address) && (address <? Z.of_nat (length block)))%Z.

Definition getValues0 (block : list Value) (address : Z) : result Value :=
  if in_block block address then
    match block !! Z.to_nat address with
    | Some v => Ok v
    | None => Raise SubscriptError
    end
  else Raise SubscriptError.

Definition setValues (block : list Value) (address : Z) (value : Value)
  : list Value :=
  if in_block block address then <[Z.to_nat address := value]> block
  else block.

(** [context[0][0]]: the four blocks, keyed ['di'], ['co'], ['hr'], ['ir']. *)
Record ModbusServerContext := {
  di : list Value;
  co : list Value;
  hr : list Value;
  ir : list Value
}.

(** The attributes of a [ModbusBridge]. During [__init__] they are assigned
    one after the other, so each is optional until its assignment ran. *)
Record Attrs := {
  a_tag_mappings : option (gmap string Mapping);
  a_ir_data : option (option (list (string * ir_entry)));
  a_context : option ModbusServerContext
}.

(** A constructed bridge. [tag_mappings] and [ir_data] are never assigned
    again after [__init__]; the methods below mutate [context] only. *)
Record ModbusBridge := {
  tag_mappings : gmap string Mapping;
  ir_data : option (list (string * ir_entry));
  context : ModbusServerContext
}.

Section Loading.

(** Python's builtin [int(text)]: [Some n] when the text denotes [n], [None]
    when it raises [ValueError]. *)
Variable py_int : string -> option Z.

Definition int (text : string) : result Z :=
  match py_int text with
  | Some n => Ok n
  | None => Raise (ValueError (InvalidLiteral text))
  end.

Definition map_file (plant_type : string) : string :=
  ("maps/" ++ plant_type ++ "/modbus_map.csv")%string.

Definition ir_file (plant_type : string) : string :=
  ("ir/" ++ plant_type ++ "_crossplc.json")%string.

(** The body of the [for row in reader] loop of [_load_modbus_map]. *)
Definition load_row (mappings : gmap string Mapping) (row : gmap string string)
  : result (gmap string Mapping) :=
  tag_name ← getitem row "name";
  type ← getitem row "type";
  table ← getitem row "table";
  address ← getitem row "address" ≫= int;
  width_text ← getitem row "width";
  width ← (if (width_text =? "")%string then Ok 1%Z else int width_text);
  units ← getitem row "units";
  desc ← getitem row "desc";
  role ← getitem row "role";
  Ok (<[tag_name := {| m_type := type; m_table := table; m_address := address;
                       m_width := width; m_units := units; m_desc := desc;
                       m_role := role |}]> mappings).

Fixpoint load_rows (mappings : gmap string Mapping)
  (rows : list (gmap string string)) : result (gmap string Mapping) :=
  match rows with
  | [] => Ok mappings
  | row :: rest => mappings' ← load_row mappings row; load_rows mappings' rest
  end.

Definition _load_modbus_map (fs : Files) (plant_type : string)
  : result (gmap string Mapping) :=
  match csv_files fs !! map_file plant_type with
  | None => Raise (FileNotFoundError (map_file plant_type))
  | Some rows => load_rows ∅ rows
  end.

Definition _load_ir_data (fs : Files) (plant_type : string)
  : option (list (string * ir_entry)) :=
  json_files fs !! ir_file plant_type.

(** [_validate_tag_role]: the three prefix rules, tried in order. *)
Definition _validate_tag_role (tag_name : string) (mapping : Mapping) : bool :=
  let role := m_role mapping in
  if startswith tag_name "SENSOR_" && negb (role =? "Sensor")%string then false
  else if startswith tag_name "ACT_" && negb (role =? "Actuator")%string then false
  else if startswith tag_name "CMD_" && negb (role =? "Command")%string then false
  else true.

(** [self.ir_data.get('detailed_components', {{}}).items()] *)
Fixpoint detailed_components (doc : list (string * ir_entry))
  : list (string * option (list string)) :=
  match doc with
  | [] => []
  | (key, entry) :: rest =>
      if (key =? "detailed_components")%string then
        match entry with
        | DetailedComponents components => components
        | OtherEntry => []
        end
      else detailed_components rest
  end.

(** The set [ir_tags] collected by [_validate_mappings]. *)
Definition ir_tag_names (doc : list (string * ir_entry)) : gset string :=
  list_to_set
    (concat (map (fun component => default [] (snd component))
                 (detailed_components doc))).

(** The two warnings of the cross-check, with the tags they list. *)
Inductive warning :=
| TagsInIrNotInMap (missing_tags : list string)
| TagsInMapNotInIr (unmapped_tags : list string).

(** [_validate_mappings]. Without IR data (no file, or an empty document,
    which is falsy) the method returns at once.  Otherwise it compares the
    names of both sides, which only produces warnings, and then checks the
    role of every tag, leaving the process with [sys.exit(1)] at the first
    tag whose check fails. *)
Definition _validate_mappings (mappings : gmap string Mapping)
  (ir_data : option (list (string * ir_entry))) : result (list warning) :=
  match ir_data with
  | None | Some [] => Ok []
  | Some doc =>
      let ir_tags := ir_tag_names doc in
      let missing_tags :=
        filter (fun tag_name => mappings !! tag_name = None) (elements ir_tags) in
      let unmapped_tags :=
        filter (fun tag_name => tag_name ∉ ir_tags) (map fst (map_to_list mappings)) in
      let warnings :=
        (if missing_tags is [] then [] else [TagsInIrNotInMap missing_tags]) ++
        (if unmapped_tags is [] then [] else [TagsInMapNotInIr unmapped_tags]) in
      if forallb (fun item => _validate_tag_role (fst item) (snd item))
                 (map_to_list mappings)
      then Ok warnings
      else Raise (SystemExit 1)
  end.

(** [_create_modbus_context]: four blocks of a hundred zeros. *)
Definition _create_modbus_context : ModbusServerContext :=
  {| di := replicate 100 (VInt 0);
     co := replicate 100 (VInt 0);
     hr := replicate 100 (VInt 0);
     ir := replicate 100 (VInt 0) |}.

(** [__init__], with the attributes assigned so far beside its result. *)
Definition __init__ (fs : Files) (plant_type : string) : result unit * Attrs :=
  let none := {| a_tag_mappings := None; a_ir_data := None; a_context := None |} in
  match _load_modbus_map fs plant_type with
  | Raise e => (Raise e, none)
  | Ok mappings =>
      let ir_data := _load_ir_data fs plant_type in
      let loaded := {| a_tag_mappings := Some mappings;
                       a_ir_data := Some ir_data;
                       a_context := None |} in
      match _validate_mappings mappings ir_data with
      | Raise e => (Raise e, loaded)
      | Ok _ =>
          (Ok tt, {| a_tag_mappings := Some mappings;
                     a_ir_data := Some ir_data;
                     a_context := Some _create_modbus_context |})
      end
  end.

(** The object a successful [__init__] leaves. *)
Definition constructed (attrs : Attrs) : option ModbusBridge :=
  mappings ← a_tag_mappings attrs;
  ir_data ← a_ir_data attrs;
  context ← a_context attrs;
  Some {| tag_mappings := mappings; ir_data := ir_data; context := context |}.

End Loading.

(** ** The accessors *)

Definition with_context (self : ModbusBridge) (context' : ModbusServerContext)
  : ModbusBridge :=
  {| tag_mappings := tag_mappings self; ir_data := ir_data self;
     context := context' |}.

Definition get_tag_value (self : ModbusBridge) (tag_name : string)
  : result Value * ModbusBridge :=
  match tag_mappings self !! tag_name with
  | None => (Raise (ValueError (UnknownTag tag_name)), self)
  | Some mapping =>
      let table := m_table mapping in
      let address := m_address mapping in
      if negb (bool_decide (table ∈ ["DI"; "COIL"; "HR"; "IR"]%string)) then
        (Raise (ValueError (UnknownTable table)), self)
      else if (table =? "DI")%string then (getValues0 (di (context self)) address, self)
      else if (table =? "COIL")%string then (getValues0 (co (context self)) address, self)
      else if (table =? "HR")%string then (getValues0 (hr (context self)) address, self)
      else if (table =? "IR")%string then (getValues0 (ir (context self)) address, self)
      else (Ok (VInt 0), self)
  end.

Definition set_tag_value (self : ModbusBridge) (tag_name : string) (value : Value)
  : result unit * ModbusBridge :=
  match tag_mappings self !! tag_name with
  | None => (Raise (ValueError (UnknownTag tag_name)), self)
  | Some mapping =>
      let table := m_table mapping in
      let address := m_address mapping in
      let c := context self in
      if (table =? "COIL")%string then
        (Ok tt, with_context self
                  {| di := di c; co := setValues (co c) address value;
                     hr := hr c; ir := ir c |})
      else if (table =? "HR")%string then
        (Ok tt, with_context self
                  {| di := di c; co := co c;
                     hr := setValues (hr c) address value; ir := ir c |})
      else (Raise (ValueError (CannotWriteTable table)), self)
  end.

(** The body of the loop of [update_sensors] for one item of the dict. *)
Definition update_sensor (self : ModbusBridge) (item : string * Value)
  : ModbusBridge :=
  let '(tag_name, value) := item in
  match tag_mappings self !! tag_name with
  | None => self
  | Some mapping =>
      let table := m_table mapping in
      let address := m_address mapping in
      let c := context self in
      if (table =? "DI")%string then
        with_context self
          {| di := setValues (di c) address value; co := co c;
             hr := hr c; ir := ir c |}
      else if (table =? "IR")%string then
        with_context self
          {| di := di c; co := co c; hr := hr c;
             ir := setValues (ir c) address value |}
      else self
  end.

(** [update_sensors(sensor_values)]: the items in the dict's order. *)
Definition update_sensors (self : ModbusBridge)
  (sensor_values : list (string * Value)) : result unit * ModbusBridge :=
  (Ok tt, fold_left update_sensor sensor_values self).

(** [get_actuator_values]: every tag whose role is [Actuator], read. *)
Fixpoint read_all (self : ModbusBridge) (names : list string)
  : result (list (string * Value)) :=
  match names with
  | [] => Ok []
  | tag_name :: rest =>
      value ← fst (get_tag_value self tag_name);
      values ← read_all self rest;
      Ok ((tag_name, value) :: values)
  end.

Definition get_actuator_values (self : ModbusBridge)
  : result (list (string * Value)) * ModbusBridge :=
  (read_all self
     (map fst (filter (fun item => m_role (snd item) = "Actuator")
                      (map_to_list (tag_mappings self)))),
   self).

End Bridge.

(* ===================================================================== *)
(** * sim/common/physics.py                                              *)
(* ===================================================================== *)

Module Physics.

(** The arithmetic the engines use on Python numbers. [lit q] is the value
    of the source literal that denotes the rational [q]; [to_int] is the
    builtin [int(x)], which truncates toward zero, and [div] is [x / y];
    both are [None] where Python raises. *)
Class Num (R : Type) := {
  lit : Q -> R;
  add : R -> R -> R;
  sub : R -> R -> R;
  mul : R -> R -> R;
  div : R -> R -> option R;
  ltb : R -> R -> bool;
  leb : R -> R -> bool;
  to_int : R -> option Z
}.

Declare Scope num_scope.
Delimit Scope num_scope with num.
Notation "x + y" := (add x y) : num_scope.
Notation "x - y" := (sub x y) : num_scope.
Notation "x * y" := (mul x y) : num_scope.
Notation "x <? y" := (ltb x y) : num_scope.
Notation "x <=? y" := (leb x y) : num_scope.
Notation "x >? y" := (ltb y x) : num_scope.
Notation "x >=? y" := (leb y x) : num_scope.

(** Exact arithmetic: the rationals. *)
#[global] Instance Q_Num : Num Q := {|
  lit q := q;
  add := Qplus;
  sub := Qminus;
  mul := Qmult;
  div x y := if Qeq_bool y 0 then None else Some (Qdiv x y);
  ltb x y := negb (Qle_bool y x);
  leb := Qle_bool;
  to_int x := Some (Z.quot (Qnum x) (Zpos (Qden x)))
|}.

(** Machine arithmetic: IEEE 754 binary64, the [float] of CPython. A
    literal is the double nearest to the rational it denotes, which the
    correctly rounded quotient of numerator and denominator yields for the
    small literals of the sources. *)
Definition float_of_Z (z : Z) : float :=
  match z with
  | Z0 => PrimFloat.of_uint63 0
  | Zpos _ => PrimFloat.of_uint63 (Uint63.of_Z z)
  | Zneg p => PrimFloat.opp (PrimFloat.of_uint63 (Uint63.of_Z (Zpos p)))
  end.

Definition float_lit (q : Q) : float :=
  PrimFloat.div (float_of_Z (Qnum q)) (float_of_Z (Zpos (Qden q))).

Definition float_to_int (x : float) : option Z :=
  match Prim2SF x with
  | S754_zero _ => Some 0%Z
  | S754_finite s m e =>
      let magnitude :=
        if (0 <=? e)%Z then (Zpos m * 2 ^ e)%Z else (Zpos m / 2 ^ (- e))%Z in
      Some (if s then (- magnitude)%Z else magnitude)
  | S754_infinity _ | S754_nan => None
  end.

#[global] Instance float_Num : Num float := {|
  lit := float_lit;
  add := PrimFloat.add;
  sub := PrimFloat.sub;
  mul := PrimFloat.mul;
  div x y := if PrimFloat.eqb y (PrimFloat.of_uint63 0) then None
             else Some (PrimFloat.div x y);
  ltb := PrimFloat.ltb;
  leb := PrimFloat.leb;
  to_int := float_to_int
|}.

(** A value of the dict an engine returns. *)
Inductive Out (R : Type) :=
| OBool (b : bool)
| OInt (n : Z)
| ONum (x : R).
Arguments OBool {R} b.
Arguments OInt {R} n.
Arguments ONum {R} x.

(** [inputs.get(key, False)] *)
Definition get (inputs : gmap string Value) (key : string) : Value :=
  default (VBool false) (inputs !! key).

Section Engines.

Context {R : Type} {N : Num R}.
Local Open Scope num_scope.

(** The builtins [min(a, b)] and [max(a, b)]: the first argument unless the
    second is strictly smaller (larger). *)
Definition min (a b : R) : R := if b <? a then b else a.
Definition max (a b : R) : R := if b >? a then b else a.

Definition int (x : R) : result Z :=
  match to_int x with
  | Some n => Ok n
  | None => Raise OverflowError
  end.

Definition truediv (x y : R) : result R :=
  match div x y with
  | Some z => Ok z
  | None => Raise ZeroDivisionError
  end.

(** The dataclass [PhysicsState]. *)
Record PhysicsState := {
  time : R;
  dt : R
}.

Definition PhysicsState_default : PhysicsState :=
  {| time := lit 0.0; dt := lit 0.02 |}.

End Engines.
Arguments PhysicsState R : clear implicits.

(** ** [BottleFillingPhysics] *)
Module Bottle.
Section Bottle.

Context {R : Type} {N : Num R}.
Local Open Scope num_scope.

Record BottleFillingPhysics := {
  k_pump : R;
  k_drain : R;
  leak_rate : R;
  gravity : R;
  bottle_level : R;
  bottle_position : R;
  water_flow : R;
  bottle_in_position : bool;
  bottle_filled : bool;
  state : PhysicsState R
}.

Definition __init__ : BottleFillingPhysics :=
  {| k_pump := lit 0.1;
     k_drain := lit 0.05;
     leak_rate := lit 0.001;
     gravity := lit 9.81;
     bottle_level := lit 0.0;
     bottle_position := lit 0.0;
     water_flow := lit 0.0;
     bottle_in_position := false;
     bottle_filled := false;
     state := PhysicsState_default |}.

Definition update (self : BottleFillingPhysics) (dt : R)
  (inputs : gmap string Value)
  : list (string * Out R) * BottleFillingPhysics :=
  let state' := {| time := time (state self) + dt; Physics.dt := dt |} in
  let motor_on := get inputs "ACT_MOTOR" in
  let nozzle_open := get inputs "ACT_NOZZLE" in
  (* Update bottle position based on motor *)
  let position1 :=
    if truthy motor_on then bottle_position self + lit 0.25 * dt
    else bottle_position self in
  (* Update bottle level based on nozzle and physics *)
  let '(level1, flow) :=
    if truthy nozzle_open && bottle_in_position self then
      (bottle_level self + k_pump self * dt, k_pump self)
    else
      (if bottle_level self >? lit 0 then
         max (lit 0.0)
             (bottle_level self - k_drain self * dt - leak_rate self * dt)
       else bottle_level self,
       lit 0.0) in
  let in_position := (lit 130 <=? position1) && (position1 <=? lit 200) in
  let filled := level1 >=? lit 0.8 in
  (* Reset bottle when it moves off screen *)
  let '(position2, level2) :=
    if position1 >? lit 600 then (lit 130, lit 0.0) else (position1, level1) in
  ([("SENSOR_LIMIT_SWITCH", OBool in_position);
    ("SENSOR_LEVEL_SENSOR", OBool filled);
    ("bottle_level", ONum level2);
    ("bottle_position", ONum position2);
    ("water_flow", ONum flow)],
   {| k_pump := k_pump self;
      k_drain := k_drain self;
      leak_rate := leak_rate self;
      gravity := gravity self;
      bottle_level := level2;
      bottle_position := position2;
      water_flow := flow;
      bottle_in_position := in_position;
      bottle_filled := filled;
      state := state' |}).

(** The engine after a run of ticks, each with its [dt] and inputs. *)
Definition run (self : BottleFillingPhysics)
  (ticks : list (R * gmap string Value)) : BottleFillingPhysics :=
  fold_left (fun s tick => snd (update s (fst tick) (snd tick))) ticks self.

End Bottle.
Arguments BottleFillingPhysics R : clear implicits.
End Bottle.

(** ** [OilRefineryPhysics] *)
Module Refinery.
Section Refinery.

Context {R : Type} {N : Num R}.
Local Open Scope num_scope.

Record OilRefineryPhysics := {
  k_feed : R;
  k_relief : R;
  k_processing : R;
  tank_capacity : R;
  tank_level : R;
  oil_spilled : R;
  oil_processed : R;
  processing_phase : Z;
  state : PhysicsState R
}.

Definition __init__ : OilRefineryPhysics :=
  {| k_feed := lit 0.2;
     k_relief := lit 0.15;
     k_processing := lit 0.1;
     tank_capacity := lit 100.0;
     tank_level := lit 20.0;
     oil_spilled := lit 0.0;
     oil_processed := lit 0.0;
     processing_phase := 0;
     state := PhysicsState_default |}.

(** The state of the tank that one tick rewrites. *)
Record tank := {
  level : R;
  spilled : R;
  processed : R;
  phase : Z
}.

(** "Update tank level based on feed pump" *)
Definition feed (self : OilRefineryPhysics) (dt : R) (feed_pump_on : Value)
  (t : tank) : tank :=
  if truthy feed_pump_on then
    {| level := min (tank_capacity self) (level t + k_feed self * dt);
       spilled := spilled t; processed := processed t; phase := phase t |}
  else t.

(** "Update based on processing phase" *)
Definition process (self : OilRefineryPhysics) (dt : R)
  (outlet_valve_open sep_valve_open waste_valve_open : Value) (t : tank)
  : tank :=
  if (phase t =? 1)%Z then
    if level t >=? lit 80 then
      {| level := level t; spilled := spilled t; processed := processed t;
         phase := 2 |}
    else t
  else if (phase t =? 2)%Z then
    if truthy outlet_valve_open && truthy sep_valve_open then
      let process_rate := min (k_processing self * dt) (level t) in
      {| level := level t - process_rate; spilled := spilled t;
         processed := processed t + process_rate; phase := phase t |}
    else t
  else if (phase t =? 3)%Z then
    if truthy waste_valve_open then
      let empty_rate := k_relief self * dt in
      let level' := max (lit 0.0) (level t - empty_rate) in
      {| level := level'; spilled := spilled t; processed := processed t;
         phase := if level' <=? lit 20 then 0%Z else phase t |}
    else t
  else t.

(** "Check for spills (overflow)" *)
Definition spill (self : OilRefineryPhysics) (t : tank) : tank :=
  if level t >? tank_capacity self then
    let spill_amount := level t - tank_capacity self in
    {| level := tank_capacity self; spilled := spilled t + spill_amount;
       processed := processed t; phase := phase t |}
  else t.

Definition update (self : OilRefineryPhysics) (dt : R)
  (inputs : gmap string Value)
  : result (list (string * Out R)) * OilRefineryPhysics :=
  let state' := {| time := time (state self) + dt; Physics.dt := dt |} in
  let feed_pump_on := get inputs "ACT_FEED_PUMP" in
  let outlet_valve_open := get inputs "ACT_OUTLET_VALVE" in
  let sep_valve_open := get inputs "ACT_SEP_VALVE" in
  let waste_valve_open := get inputs "ACT_WASTE_VALVE" in
  let t0 := {| level := tank_level self; spilled := oil_spilled self;
               processed := oil_processed self;
               phase := processing_phase self |} in
  let t1 := feed self dt feed_pump_on t0 in
  let t2 := process self dt outlet_valve_open sep_valve_open waste_valve_open t1 in
  let t3 := spill self t2 in
  let self' :=
    {| k_feed := k_feed self;
       k_relief := k_relief self;
       k_processing := k_processing self;
       tank_capacity := tank_capacity self;
       tank_level := level t3;
       oil_spilled := spilled t3;
       oil_processed := processed t3;
       processing_phase := phase t3;
       state := state' |} in
  (ratio ← truediv (level t3) (tank_capacity self);
   tank_level_percent ← int (ratio * lit 100);
   let oil_upper_sensor := level t3 >? lit 90 in
   spill_total ← int (spilled t3);
   processed_total ← int (processed t3);
   Ok [("SENSOR_TANK_LEVEL", OInt tank_level_percent);
       ("SENSOR_OIL_SPILL", OInt spill_total);
       ("SENSOR_OIL_PROCESSED", OInt processed_total);
       ("SENSOR_OIL_UPPER", OBool oil_upper_sensor);
       ("tank_level", ONum (level t3));
       ("oil_spilled", ONum (spilled t3));
       ("oil_processed", ONum (processed t3));
       ("processing_phase", OInt (phase t3))],
   self').

(** The engine after a run of ticks, each with its [dt] and inputs. *)
Definition run (self : OilRefineryPhysics)
  (ticks : list (R * gmap string Value)) : OilRefineryPhysics :=
  fold_left (fun s tick => snd (update s (fst tick) (snd tick))) ticks self.

End Refinery.
Arguments OilRefineryPhysics R : clear implicits.
End Refinery.

End Physics.

(* ===================================================================== *)
(** * tools/validate_map.py                                              *)
(* ===================================================================== *)

Module ValidateMap.

(** The tag policy of [policy/tags.yaml], a file that is no part of the
    sources: the four tables the validator reads from it, each in the order
    of the document. *)
Record Policy := {
  prefixes : list (string * string);
  roles : list (string * string);
  type_rules : list (string * list string);
  modbus_tables : list (string * string)
}.

(** The messages the validator appends to [errors] and [warnings]; [i] is
    the row number, counted from 1. *)
Inductive error :=
| MissingRequiredColumns (missing_columns : list string)
| MissingTagName (i : nat)
| NamingPolicy (i : nat) (tag_name : string)
| RoleMismatch (i : nat) (tag_name actual_role expected_role : string)
| TypeMismatch (i : nat) (tag_name actual_type : string)
               (expected_types : list string)
| DuplicateAddress (i : nat) (address_key used_by : string)
| InvalidAddressFormat (i : nat) (address : string).

Inductive warning :=
| TableMismatch (i : nat) (tag_name actual_table expected_table : string).

(** The dict [validate_modbus_map] returns. *)
Record Report := {
  file : string;
  total_tags : nat;
  errors : list error;
  warnings : list warning;
  valid : bool
}.

(** What the loop over the rows carries from row to row. *)
Record checks := {
  addresses : gmap string string;
  errors_so_far : list error;
  warnings_so_far : list warning
}.

Definition required_columns : list string :=
  ["name"; "type"; "table"; "address"; "width"; "units"; "desc"; "role"].

(** The search common to the role, type and table rules: the first entry
    whose pattern ends in a star and whose stem starts the tag name. *)
Definition first_rule {A} (rules : list (string * A)) (tag_name : string)
  : option A :=
  snd <$> List.find
            (fun rule => endswith_star (fst rule)
                         && startswith tag_name (drop_last (fst rule)))
            rules.

(** [f"{table}:{address}"] *)
Definition address_key (tag : Row) : string :=
  (get_or_empty tag "table" ++ ":" ++ get_or_empty tag "address")%string.

Section Validator.

(** Python's [int(text)] and [int(text, 16)], as for the bridge. *)
Variable py_int : string -> option Z.
Variable py_int16 : string -> option Z.

Definition address_format_ok (address : string) : bool :=
  if startswith address "0x" then bool_decide (is_Some (py_int16 address))
  else bool_decide (is_Some (py_int address)).

(** The body of [for i, tag in enumerate(tags, 1)]. *)
Definition check_tag (policy : Policy) (st : checks) (i : nat) (tag : Row)
  : checks :=
  let tag_name := get_or_empty tag "name" in
  if (tag_name =? EmptyString)%string then
    {| addresses := addresses st;
       errors_so_far := errors_so_far st ++ [MissingTagName i];
       warnings_so_far := warnings_so_far st |}
  else
    (* Check prefix compliance *)
    let errors1 :=
      if existsb (startswith tag_name) (map snd (prefixes policy))
      then errors_so_far st
      else errors_so_far st ++ [NamingPolicy i tag_name] in
    (* Check role consistency *)
    let actual_role := get_or_empty tag "role" in
    let errors2 :=
      match first_rule (roles policy) tag_name with
      | Some expected_role =>
          if negb (expected_role =? EmptyString)%string
             && negb (actual_role =? expected_role)%string
          then errors1 ++ [RoleMismatch i tag_name actual_role expected_role]
          else errors1
      | None => errors1
      end in
    (* Check type consistency *)
    let actual_type := get_or_empty tag "type" in
    let errors3 :=
      match first_rule (type_rules policy) tag_name with
      | Some (t :: ts) =>
          if bool_decide (actual_type ∈ t :: ts) then errors2
          else errors2 ++ [TypeMismatch i tag_name actual_type (t :: ts)]
      | Some [] | None => errors2
      end in
    (* Check Modbus table consistency *)
    let actual_table := get_or_empty tag "table" in
    let warnings1 :=
      match first_rule (modbus_tables policy) tag_name with
      | Some expected_table =>
          if negb (expected_table =? EmptyString)%string
             && negb (actual_table =? expected_table)%string
          then warnings_so_far st
                 ++ [TableMismatch i tag_name actual_table expected_table]
          else warnings_so_far st
      | None => warnings_so_far st
      end in
    (* Check address uniqueness *)
    let address := get_or_empty tag "address" in
    let key := address_key tag in
    let '(addresses1, errors4) :=
      match addresses st !! key with
      | Some used_by => (addresses st, errors3 ++ [DuplicateAddress i key used_by])
      | None => (<[key := tag_name]> (addresses st), errors3)
      end in
    (* Validate address format *)
    let errors5 :=
      if address_format_ok address then errors4
      else errors4 ++ [InvalidAddressFormat i address] in
    {| addresses := addresses1;
       errors_so_far := errors5;
       warnings_so_far := warnings1 |}.

Fixpoint check_tags (policy : Policy) (st : checks) (i : nat) (tags : list Row)
  : checks :=
  match tags with
  | [] => st
  | tag :: rest => check_tags policy (check_tag policy st i tag) (S i) rest
  end.

(** [validate_modbus_map(map_file)], given the policy that
    [load_tag_policy()] reads and the rows of the map file when it exists. *)
Definition validate_modbus_map (policy : Policy)
  (csv_files : gmap string (list Row)) (map_file : string) : result Report :=
  match csv_files !! map_file with
  | None => Raise (FileNotFoundError map_file)
  | Some [] => Raise IndexError
  | Some (first :: rest) =>
      let tags := first :: rest in
      let missing_columns :=
        filter (fun col => first !! col = None) required_columns in
      let start :=
        {| addresses := ∅;
           errors_so_far :=
             if missing_columns is [] then []
             else [MissingRequiredColumns missing_columns];
           warnings_so_far := [] |} in
      let final := check_tags policy start 1 tags in
      Ok {| file := map_file;
            total_tags := length tags;
            errors := errors_so_far final;
            warnings := warnings_so_far final;
            valid := bool_decide (length (errors_so_far final) = 0%nat) |}
  end.

End Validator.

End ValidateMap.

(** ** The command line of the validator *)

Module ValidateTool.
Import ValidateMap.

Section Main.

Variable py_int : string -> option Z.
Variable py_int16 : string -> option Z.
Variable policy : Policy.
Variable csv_files : gmap string (list Row).

(** The loop of [main] over the map files: [all_valid] turns false at the
    first report that lists an error, and an exception of the validator
    ends the loop. *)
Fixpoint validate_all (map_files : list string) (all_valid : bool)
  : result bool :=
  match map_files with
  | [] => Ok all_valid
  | map_file :: rest =>
      report ← validate_modbus_map py_int py_int16 policy csv_files map_file;
      validate_all rest (if errors report is [] then all_valid else false)
  end.

(** [main()], as a function of [sys.argv]. It never returns: it ends in
    [sys.exit] or in the exception that escaped the validator, and that
    exception is its value here. *)
Definition main (argv : list string) : exn :=
  match argv with
  | [] | [_] => SystemExit 1
  | _ :: map_files =>
      match validate_all map_files true with
      | Ok true => SystemExit 0
      | Ok false => SystemExit 1
      | Raise e => e
      end
  end.

End Main.

End ValidateTool.

(* ===================================================================== *)
(** * sim/common/attack_injector.py                                      *)
(* ===================================================================== *)

Module Attacks.
Import Bridge.

(** The enum [AttackType] and the [value] of each member. *)
Inductive AttackType :=
| NEVER_STOP
| STOP_ALL
| CONSTANT_RUNNING
| NOTHING_RUNS
| MOVE_AND_FILL
| STOP_AND_FILL
| RUN_NO_SPILL
| SENSOR_SPOOFING
| ACTUATOR_OVERRIDE
| RANDOM_NOISE
| TIMING_ATTACK.

Definition value (attack_type : AttackType) : string :=
  match attack_type with
  | NEVER_STOP => "never_stop"
  | STOP_ALL => "stop_all"
  | CONSTANT_RUNNING => "constant_running"
  | NOTHING_RUNS => "nothing_runs"
  | MOVE_AND_FILL => "move_and_fill"
  | STOP_AND_FILL => "stop_and_fill"
  | RUN_NO_SPILL => "run_no_spill"
  | SENSOR_SPOOFING => "sensor_spoofing"
  | ACTUATOR_OVERRIDE => "actuator_override"
  | RANDOM_NOISE => "random_noise"
  | TIMING_ATTACK => "timing_attack"
  end.

(** The dataclass [AttackConfig]; durations and intensities are the decimal
    numbers written in the source. *)
Record AttackConfig := {
  attack_type : AttackType;
  target_plant : string;
  duration : Q;
  intensity : Q;
  target_tags : option (list string);
  custom_values : option (gmap string Value)
}.

(** [AttackConfig(attack_type, target_plant, duration, intensity)] with the
    defaults of the remaining fields. *)
Definition config (attack_type : AttackType) (target_plant : string)
  (duration intensity : Q) : AttackConfig :=
  {| attack_type := attack_type; target_plant := target_plant;
     duration := duration; intensity := intensity;
     target_tags := None; custom_values := None |}.

(** ** The attack patterns that write fixed values

    Each is a run of [set_tag_value] calls on the bridge; the first call
    that raises ends the pattern, with the earlier writes done. *)
Definition step : Type := ModbusBridge -> result unit * ModbusBridge.

Definition pass : step := fun bridge => (Ok tt, bridge).

Definition set (tag_name : string) (value : Value) : step :=
  fun bridge => set_tag_value bridge tag_name value.

Definition seq (first second : step) : step :=
  fun bridge =>
    match first bridge with
    | (Ok _, bridge') => second bridge'
    | (Raise e, bridge') => (Raise e, bridge')
    end.

(** The statements of a pattern, one after the other. *)
Definition sequence (steps : list step) : step := foldr seq pass steps.

Definition _attack_never_stop (c : AttackConfig) : step :=
  if (target_plant c =? "bottle")%string then
    sequence
      [set "CMD_RUN" (VBool true);
       set "SENSOR_LIMIT_SWITCH" (VBool false);
       set "SENSOR_LEVEL_SENSOR" (VBool false);
       set "ACT_MOTOR" (VBool true);
       set "ACT_NOZZLE" (VBool false)]
  else if (target_plant c =? "refinery")%string then
    sequence
      [set "ACT_FEED_PUMP" (VBool true);
       set "SENSOR_TANK_LEVEL" (VInt 0);
       set "SENSOR_OIL_UPPER" (VBool false);
       set "ACT_OUTLET_VALVE" (VBool false);
       set "ACT_WASTE_VALVE" (VBool false)]
  else pass.

Definition _attack_stop_all (c : AttackConfig) : step :=
  if (target_plant c =? "bottle")%string then
    sequence
      [set "CMD_RUN" (VBool false);
       set "ACT_MOTOR" (VBool false);
       set "ACT_NOZZLE" (VBool false)]
  else if (target_plant c =? "refinery")%string then
    sequence
      [set "ACT_FEED_PUMP" (VBool false);
       set "ACT_OUTLET_VALVE" (VBool false);
       set "ACT_SEP_VALVE" (VBool false);
       set "ACT_WASTE_VALVE" (VBool false)]
  else pass.

Definition _attack_constant_running (c : AttackConfig) : step :=
  if (target_plant c =? "bottle")%string then
    sequence
      [set "CMD_RUN" (VBool true);
       set "ACT_MOTOR" (VBool true)]
  else if (target_plant c =? "refinery")%string then
    sequence
      [set "ACT_FEED_PUMP" (VBool true);
       set "SENSOR_TANK_LEVEL" (VInt 0);
       set "ACT_OUTLET_VALVE" (VBool false);
       set "ACT_WASTE_VALVE" (VBool false)]
  else pass.

Definition _attack_nothing_runs (c : AttackConfig) : step :=
  if (target_plant c =? "bottle")%string then
    sequence
      [set "CMD_RUN" (VBool false)]
  else if (target_plant c =? "refinery")%string then
    sequence
      [set "ACT_FEED_PUMP" (VBool false)]
  else pass.

Definition _attack_move_and_fill (c : AttackConfig) : step :=
  if (target_plant c =? "bottle")%string then
    sequence
      [set "CMD_RUN" (VBool true);
       set "ACT_MOTOR" (VBool true);
       set "ACT_NOZZLE" (VBool true)]
  else pass.

Definition _attack_stop_and_fill (c : AttackConfig) : step :=
  if (target_plant c =? "bottle")%string then
    sequence
      [set "CMD_RUN" (VBool true);
       set "ACT_MOTOR" (VBool false);
       set "ACT_NOZZLE" (VBool true)]
  else pass.

Definition _attack_run_no_spill (c : AttackConfig) : step :=
  if (target_plant c =? "refinery")%string then
    sequence
      [set "ACT_FEED_PUMP" (VBool true);
       set "SENSOR_OIL_SPILL" (VInt 0)]
  else pass.

(** The entries of [attack_patterns] for the patterns above; the four
    remaining patterns draw random numbers or sleep and are left out. *)
Definition fixed_pattern (attack_type : AttackType)
  : option (AttackConfig -> step) :=
  match attack_type with
  | NEVER_STOP => Some _attack_never_stop
  | STOP_ALL => Some _attack_stop_all
  | CONSTANT_RUNNING => Some _attack_constant_running
  | NOTHING_RUNS => Some _attack_nothing_runs
  | MOVE_AND_FILL => Some _attack_move_and_fill
  | STOP_AND_FILL => Some _attack_stop_and_fill
  | RUN_NO_SPILL => Some _attack_run_no_spill
  | SENSOR_SPOOFING | ACTUATOR_OVERRIDE | RANDOM_NOISE | TIMING_ATTACK => None
  end.

(** ** The registry of active attacks

    [active_attacks] maps the id of each active attack to its configuration
    and [attack_threads] holds the ids for which a worker thread was
    started.  The worker runs beside the caller and is no part of the
    model; it touches the registry only when it ends, by removing its own
    id. *)
Record AttackInjector := {
  active_attacks : gmap string AttackConfig;
  attack_threads : gset string
}.

Definition new_injector : AttackInjector :=
  {| active_attacks := ∅; attack_threads := ∅ |}.

(** The two [ValueError]s of this module, by message, and the results of
    the functions that raise them. *)
Inductive attack_error :=
| AlreadyRunning (attack_id : string)      (* "Attack {attack_id} already running" *)
| UnknownScenario (scenario_name : string). (* "Unknown scenario: {scenario_name}" *)

Inductive outcome (A : Type) :=
| Done (a : A)
| Failed (e : attack_error).
Arguments Done {A} a.
Arguments Failed {A} e.

(** [f"{config.attack_type.value}_{int(time.time())}"], with [now] the clock
    reading in whole seconds. *)
Definition attack_id (c : AttackConfig) (now : Z) : string :=
  (value (attack_type c) ++ "_" ++ pretty now)%string.

Definition start_attack (self : AttackInjector) (c : AttackConfig) (now : Z)
  : outcome string * AttackInjector :=
  let id := attack_id c now in
  match active_attacks self !! id with
  | Some _ => (Failed (AlreadyRunning id), self)
  | None =>
      (Done id, {| active_attacks := <[id := c]> (active_attacks self);
                 attack_threads := {[ id ]} ∪ attack_threads self |})
  end.

Definition stop_attack (self : AttackInjector) (id : string) : AttackInjector :=
  match active_attacks self !! id with
  | Some _ => {| active_attacks := delete id (active_attacks self);
                 attack_threads := attack_threads self |}
  | None => self
  end.

(** [for attack_id in list(self.active_attacks.keys()): self.stop_attack(attack_id)] *)
Definition stop_all_attacks (self : AttackInjector) : AttackInjector :=
  fold_left stop_attack (map fst (map_to_list (active_attacks self))) self.

(** [self.active_attacks.copy()] *)
Definition list_attacks (self : AttackInjector) : gmap string AttackConfig :=
  active_attacks self.

(** ** [AttackManager] *)

(** [_define_scenarios], in the order of the dict. *)
Definition _define_scenarios : list (string * list AttackConfig) :=
  [("bottle_chaos",
    [config NEVER_STOP "bottle" 30.0 1.0;
     config SENSOR_SPOOFING "bottle" 30.0 0.5]);
   ("refinery_overflow",
    [config CONSTANT_RUNNING "refinery" 45.0 1.0;
     config RUN_NO_SPILL "refinery" 45.0 1.0]);
   ("sensor_manipulation",
    [config SENSOR_SPOOFING "bottle" 60.0 0.8;
     config SENSOR_SPOOFING "refinery" 60.0 0.8]);
   ("actuator_chaos",
    [config ACTUATOR_OVERRIDE "bottle" 40.0 0.6;
     config ACTUATOR_OVERRIDE "refinery" 40.0 0.6]);
   ("random_chaos",
    [config RANDOM_NOISE "bottle" 30.0 0.3;
     config RANDOM_NOISE "refinery" 30.0 0.3])]%string.

(** What the workers do to the registry while the caller runs: a worker
    that ends, in the [finally] of [_run_attack], removes its id from
    [active_attacks] if it is still there. *)
Definition reap (self : AttackInjector) (ended : gset string) : AttackInjector :=
  {| active_attacks :=
       filter (fun entry => fst entry ∉ ended) (active_attacks self);
     attack_threads := attack_threads self |}.

(** The loop of [run_scenario]: each [start_attack] reads the clock once;
    [clock k] is the reading of the call number [k], and [ended k] holds the
    ids of the workers that ended before that call. *)
Fixpoint start_each (self : AttackInjector) (configs : list AttackConfig)
  (clock : nat -> Z) (ended : nat -> gset string) (k : nat)
  (attack_ids : list string)
  : outcome (list string) * AttackInjector :=
  match configs with
  | [] => (Done attack_ids, self)
  | c :: rest =>
      match start_attack (reap self (ended k)) c (clock k) with
      | (Done id, self') =>
          start_each self' rest clock ended (S k) (attack_ids ++ [id])
      | (Failed e, self') => (Failed e, self')
      end
  end.

Definition run_scenario (self : AttackInjector) (scenario_name : string)
  (clock : nat -> Z) (ended : nat -> gset string)
  : outcome (list string) * AttackInjector :=
  match List.find (fun entry => (fst entry =? scenario_name)%string)
                  _define_scenarios with
  | None => (Failed (UnknownScenario scenario_name), self)
  | Some (_, configs) => start_each self configs clock ended 0 []
  end.

Definition list_scenarios : list string := map fst _define_scenarios.

End Attacks.

(* ===================================================================== *)
(** * Concrete plants used to exercise the definitions                   *)
(* ===================================================================== *)

Module Examples.
Import Bridge.

(** A row of a map file with the eight columns of the format. *)
Definition row (name type table address role : string) : Row :=
  list_to_map
    [("name", name); ("type", type); ("table", table); ("address", address);
     ("width", "1"); ("units", EmptyString); ("desc", EmptyString);
     ("role", role)]%string.

Definition mapping (type table : string) (address : Z) (role : string)
  : Mapping :=
  {| m_type := type; m_table := table; m_address := address; m_width := 1;
     m_units := EmptyString; m_desc := EmptyString; m_role := role |}.

Definition files (plant_type : string) (rows : list Row) : Files :=
  {| csv_files := {[ map_file plant_type := rows ]}; json_files := ∅ |}.

(** A small bottle plant: two sensors, two actuators, a command, and one
    register of each word table. *)
Definition bottle_rows : list Row :=
  [row "SENSOR_LIMIT_SWITCH" "BOOL" "DI" "0" "Sensor";
   row "SENSOR_LEVEL_SENSOR" "BOOL" "DI" "1" "Sensor";
   row "ACT_MOTOR" "BOOL" "COIL" "0" "Actuator";
   row "ACT_NOZZLE" "BOOL" "COIL" "1" "Actuator";
   row "CMD_RUN" "BOOL" "COIL" "2" "Command";
   row "CMD_SPEED" "INT" "HR" "0" "Command";
   row "SENSOR_FLOW" "INT" "IR" "0" "Sensor"].

Definition bottle_bridge : ModbusBridge :=
  {| tag_mappings :=
       list_to_map
         [("SENSOR_LIMIT_SWITCH", mapping "BOOL" "DI" 0 "Sensor");
          ("SENSOR_LEVEL_SENSOR", mapping "BOOL" "DI" 1 "Sensor");
          ("ACT_MOTOR", mapping "BOOL" "COIL" 0 "Actuator");
          ("ACT_NOZZLE", mapping "BOOL" "COIL" 1 "Actuator");
          ("CMD_RUN", mapping "BOOL" "COIL" 2 "Command");
          ("CMD_SPEED", mapping "INT" "HR" 0 "Command");
          ("SENSOR_FLOW", mapping "INT" "IR" 0 "Sensor")];
     ir_data := None;
     context := _create_modbus_context |}.

(** A plant whose map places tags at address 150, past the hundred cells
    of a block. *)
Definition far_rows : list Row :=
  [row "SENSOR_FAR" "BOOL" "DI" "150" "Sensor";
   row "ACT_FAR" "BOOL" "COIL" "150" "Actuator"].

Definition far_bridge : ModbusBridge :=
  {| tag_mappings :=
       list_to_map
         [("SENSOR_FAR", mapping "BOOL" "DI" 150 "Sensor");
          ("ACT_FAR", mapping "BOOL" "COIL" 150 "Actuator")];
     ir_data := None;
     context := _create_modbus_context |}.

(** A map in which two actuators share coil 0. *)
Definition colliding_rows : list Row :=
  [row "ACT_MOTOR" "BOOL" "COIL" "0" "Actuator";
   row "ACT_NOZZLE" "BOOL" "COIL" "0" "Actuator"].

(** A map that declares a [SENSOR_] tag as an actuator. *)
Definition misdeclared_rows : list Row :=
  [row "SENSOR_LEVEL_SENSOR" "BOOL" "DI" "1" "Actuator";
   row "ACT_MOTOR" "BOOL" "COIL" "0" "Actuator"].

(** An IR document that names one controller tag. *)
Definition some_ir : list (string * ir_entry) :=
  [("detailed_components",
    DetailedComponents [("PLC1", Some ["ACT_MOTOR"])])].

(** A tag policy in the shape of [policy/tags.yaml]. *)
Definition policy : ValidateMap.Policy :=
  {| ValidateMap.prefixes :=
       [("sensor", "SENSOR_"); ("actuator", "ACT_"); ("command", "CMD_")];
     ValidateMap.roles :=
       [("SENSOR_*", "Sensor"); ("ACT_*", "Actuator"); ("CMD_*", "Command")];
     ValidateMap.type_rules :=
       [("SENSOR_*", ["BOOL"; "INT"]); ("ACT_*", ["BOOL"]);
        ("CMD_*", ["BOOL"; "INT"])];
     ValidateMap.modbus_tables := [("ACT_*", "COIL")] |}%string.

(** The bottle engine with its position and level set, as a test sets the
    two attributes of a fresh engine. *)
Definition bottle_at {R : Type} {N : Physics.Num R} (position level : R)
  : Physics.Bottle.BottleFillingPhysics R :=
  let fresh := Physics.Bottle.__init__ in
  {| Physics.Bottle.k_pump := Physics.Bottle.k_pump fresh;
     Physics.Bottle.k_drain := Physics.Bottle.k_drain fresh;
     Physics.Bottle.leak_rate := Physics.Bottle.leak_rate fresh;
     Physics.Bottle.gravity := Physics.Bottle.gravity fresh;
     Physics.Bottle.bottle_level := level;
     Physics.Bottle.bottle_position := position;
     Physics.Bottle.water_flow := Physics.Bottle.water_flow fresh;
     Physics.Bottle.bottle_in_position := Physics.Bottle.bottle_in_position fresh;
     Physics.Bottle.bottle_filled := Physics.Bottle.bottle_filled fresh;
     Physics.Bottle.state := Physics.Bottle.state fresh |}.

(** The refinery engine with its tank level set. *)
Definition refinery_at {R : Type} {N : Physics.Num R} (level : R)
  : Physics.Refinery.OilRefineryPhysics R :=
  let fresh := Physics.Refinery.__init__ in
  {| Physics.Refinery.k_feed := Physics.Refinery.k_feed fresh;
     Physics.Refinery.k_relief := Physics.Refinery.k_relief fresh;
     Physics.Refinery.k_processing := Physics.Refinery.k_processing fresh;
     Physics.Refinery.tank_capacity := Physics.Refinery.tank_capacity fresh;
     Physics.Refinery.tank_level := level;
     Physics.Refinery.oil_spilled := Physics.Refinery.oil_spilled fresh;
     Physics.Refinery.oil_processed := Physics.Refinery.oil_processed fresh;
     Physics.Refinery.processing_phase := Physics.Refinery.processing_phase fresh;
     Physics.Refinery.state := Physics.Refinery.state fresh |}.

(** Actuator readings: motor on and nozzle off; feed pump on. *)
Definition motor_on : gmap string Value :=
  {[ "ACT_MOTOR" := VBool true; "ACT_NOZZLE" := VBool false ]}.

Definition feed_pump_on : gmap string Value :=
  {[ "ACT_FEED_PUMP" := VBool true ]}.

End Examples.

(** Further engines and bridges in given states. *)
Module Scenes.
Import Bridge.

(** The refinery engine in a given phase with a given tank level. *)
Definition refinery_in {R : Type} {N : Physics.Num R} (phase : Z) (level : R)
  : Physics.Refinery.OilRefineryPhysics R :=
  let fresh := Physics.Refinery.__init__ in
  {| Physics.Refinery.k_feed := Physics.Refinery.k_feed fresh;
     Physics.Refinery.k_relief := Physics.Refinery.k_relief fresh;
     Physics.Refinery.k_processing := Physics.Refinery.k_processing fresh;
     Physics.Refinery.tank_capacity := Physics.Refinery.tank_capacity fresh;
     Physics.Refinery.tank_level := level;
     Physics.Refinery.oil_spilled := Physics.Refinery.oil_spilled fresh;
     Physics.Refinery.oil_processed := Physics.Refinery.oil_processed fresh;
     Physics.Refinery.processing_phase := phase;
     Physics.Refinery.state := Physics.Refinery.state fresh |}.

(** The bottle engine with a bottle under the nozzle: at position 150, with
    the in-position flag of the previous tick set. *)
Definition bottle_under_nozzle {R : Type} {N : Physics.Num R} (level : R)
  : Physics.Bottle.BottleFillingPhysics R :=
  let fresh := Physics.Bottle.__init__ in
  {| Physics.Bottle.k_pump := Physics.Bottle.k_pump fresh;
     Physics.Bottle.k_drain := Physics.Bottle.k_drain fresh;
     Physics.Bottle.leak_rate := Physics.Bottle.leak_rate fresh;
     Physics.Bottle.gravity := Physics.Bottle.gravity fresh;
     Physics.Bottle.bottle_level := level;
     Physics.Bottle.bottle_position := Physics.lit 150;
     Physics.Bottle.water_flow := Physics.Bottle.water_flow fresh;
     Physics.Bottle.bottle_in_position := true;
     Physics.Bottle.bottle_filled := false;
     Physics.Bottle.state := Physics.Bottle.state fresh |}.

(** Actuator readings. *)
Definition nozzle_open : gmap string Value :=
  {[ "ACT_MOTOR" := VBool false; "ACT_NOZZLE" := VBool true ]}.

Definition valves_open : gmap string Value :=
  {[ "ACT_OUTLET_VALVE" := VBool true; "ACT_SEP_VALVE" := VBool true ]}.

Definition waste_open : gmap string Value :=
  {[ "ACT_WASTE_VALVE" := VBool true ]}.

(** A bottle plant whose sensors sit in the discrete inputs, as in
    [bottle_bridge], and a refinery whose tags are all coils and holding
    registers. *)
Definition writable_bottle : ModbusBridge :=
  {| tag_mappings :=
       list_to_map
         [("CMD_RUN", Examples.mapping "BOOL" "COIL" 2 "Command");
          ("ACT_MOTOR", Examples.mapping "BOOL" "COIL" 0 "Actuator");
          ("ACT_NOZZLE", Examples.mapping "BOOL" "COIL" 1 "Actuator")];
     ir_data := None;
     context := _create_modbus_context |}.

End Scenes.

(* ===================================================================== *)
(** * Properties of the process state store                              *)
(* ===================================================================== *)

Import Bridge.

(** The four blocks have the hundred cells [_create_modbus_context] gives
    them. *)
Definition sized (c : ModbusServerContext) : Prop :=
  length (di c) = 100%nat /\ length (co c) = 100%nat /\
  length (hr c) = 100%nat /\ length (ir c) = 100%nat.

(** The items of [sensor_values] that [update_sensors] acts on: a
    registered tag of the table [table] at the cell [address]. *)
Definition writes_cell (self : ModbusBridge) (table : string) (address : Z)
  (item : string * Value) : Prop :=
  exists mapping, tag_mappings self !! fst item = Some mapping
                  /\ m_table mapping = table /\ m_address mapping = address.

(** Whether [update_sensors] acts on an item at all. *)
Definition is_sensor_item (self : ModbusBridge) (item : string * Value) : bool :=
  match tag_mappings self !! fst item with
  | Some mapping => (m_table mapping =? "DI")%string || (m_table mapping =? "IR")%string
  | None => false
  end.

(** The table and address texts of a row of a map file, the pair the
    validator keys its uniqueness check on, and whether the row has a
    name. *)
Definition address_pair (tag : Row) : string * string :=
  (get_or_empty tag "table", get_or_empty tag "address").

Definition named (tag : Row) : Prop := get_or_empty tag "name" <> EmptyString.

(** Values can be told apart. *)
#[global] Instance Value_eq_dec : EqDecision Value.
Proof. solve_decision. Defined.

(** The cell a mapping names: its table and address. *)
Definition cell_of (mapping : Mapping) : string * Z :=
  (m_table mapping, m_address mapping).

(** A row that [_load_modbus_map] can turn into a mapping: it has the eight
    columns, its address is an integer and its width is blank or an
    integer. *)
Definition loadable (py_int : string -> option Z) (row : Row) : Prop :=
  Forall (fun column => is_Some (row !! column))
         ["name"; "type"; "table"; "address"; "width"; "units"; "desc"; "role"]%string
  /\ is_Some (row !! "address" ≫= py_int)
  /\ (row !! "width" = Some EmptyString \/ is_Some (row !! "width" ≫= py_int)).

(** The mapping that the loader builds from a row: each field is the text
    of its column, the address is the integer the address text denotes, and
    the width is 1 for a blank cell and the integer of the text otherwise. *)
Definition describes (py_int : string -> option Z) (row : Row)
  (mapping : Mapping) : Prop :=
  row !! "type" = Some (m_type mapping)
  /\ row !! "table" = Some (m_table mapping)
  /\ row !! "address" ≫= py_int = Some (m_address mapping)
  /\ (row !! "width" = Some EmptyString /\ m_width mapping = 1%Z
      \/ row !! "width" <> Some EmptyString
         /\ row !! "width" ≫= py_int = Some (m_width mapping))
  /\ row !! "units" = Some (m_units mapping)
  /\ row !! "desc" = Some (m_desc mapping)
  /\ row !! "role" = Some (m_role mapping).

(** What the validator asks of a row by itself: a name that starts with one
    of the policy's prefixes, the role and one of the types that the first
    matching rules of the policy name, if they name any, and an address
    that reads as an integer. *)
Definition row_passes (py_int py_int16 : string -> option Z)
  (policy : ValidateMap.Policy) (tag : Row) : Prop :=
  let tag_name := get_or_empty tag "name" in
  tag_name <> EmptyString
  /\ (exists prefix, prefix ∈ map snd (ValidateMap.prefixes policy)
                     /\ startswith tag_name prefix = true)
  /\ (forall expected_role,
         ValidateMap.first_rule (ValidateMap.roles policy) tag_name
         = Some expected_role ->
         expected_role <> EmptyString ->
         get_or_empty tag "role" = expected_role)
  /\ (forall expected_types,
         ValidateMap.first_rule (ValidateMap.type_rules policy) tag_name
         = Some expected_types ->
         expected_types <> [] ->
         get_or_empty tag "type" ∈ expected_types)
  /\ (if startswith (get_or_empty tag "address") "0x"
      then is_Some (py_int16 (get_or_empty tag "address"))
      else is_Some (py_int (get_or_empty tag "address"))).

(** Case analysis on the comparisons of the exact instance in the goal. *)
Ltac compare_rationals :=
  cbn [Physics.ltb Physics.leb Physics.add Physics.sub Physics.mul Physics.lit
       Physics.Q_Num];
  repeat match goal with
         | |- context [Qle_bool ?a ?b] =>
             lazymatch a with context [Qle_bool _ _] => fail | _ => idtac end;
             lazymatch b with context [Qle_bool _ _] => fail | _ => idtac end;
             let H := fresh "Hcmp" in
             destruct (Qle_bool a b) eqn:H;
             [apply Qle_bool_iff in H
             |let Hlt := fresh "Hcmp" in
              assert (b < a)%Q as Hlt
                by (apply Qnot_le_lt; intros Hle; apply Qle_bool_iff in Hle;
                    congruence);
              clear H];
             cbn [negb andb]
         end.

(** Proof steps for the validator's loop body: unfold it along the known
    outcome of its name test and key lookup; close a goal that says a list
    of errors is an extension of another. *)
Ltac unfold_check_tag :=
  unfold ValidateMap.check_tag;
  repeat match goal with
    | H : (_ =? _)%string = _ |- _ => rewrite H
    | H : @lookup _ _ _ _ _ (ValidateMap.addresses _) = _ |- _ => rewrite H
    end;
  simpl.

Ltac appended :=
  first [ by (exists []; rewrite app_nil_r)
        | eexists; rewrite <- ?app_assoc; reflexivity ].

Section Blocks.

Implicit Types (block : list Value) (address : Z) (value : Value).

Lemma in_block_spec block address :
  in_block block address = true <-> (0 <= address < Z.of_nat (length block))%Z.
Proof. unfold in_block. rewrite andb_true_iff, Z.leb_le, Z.ltb_lt. tauto. Qed.

Lemma length_setValues block address value :
  length (setValues block address value) = length block.
Proof. unfold setValues. destruct (in_block _ _); [apply length_insert | done]. Qed.

Lemma in_block_setValues block a address value :
  in_block (setValues block a value) address = in_block block address.
Proof. unfold in_block. by rewrite length_setValues. Qed.

Lemma getValues0_setValues_eq block address value :
  in_block block address = true ->
  getValues0 (setValues block address value) address = Ok value.
Proof.
  intros Hin. unfold getValues0. rewrite in_block_setValues, Hin.
  unfold setValues. rewrite Hin.
  apply in_block_spec in Hin.
  rewrite list_lookup_insert_eq; [done | lia].
Qed.

Lemma getValues0_outside block address :
  in_block block address = false -> getValues0 block address = Raise SubscriptError.
Proof. intros Hout. unfold getValues0. by rewrite Hout. Qed.

Lemma setValues_outside block address value :
  in_block block address = false -> setValues block address value = block.
Proof. intros Hout. unfold setValues. by rewrite Hout. Qed.

(** A write touches no cell but the addressed one. *)
Lemma setValues_lookup_ne block address value (i : nat) :
  Z.of_nat i <> address -> setValues block address value !! i = block !! i.
Proof.
  intros Hne. unfold setValues. destruct (in_block block address) eqn:Hin; [|done].
  apply in_block_spec in Hin. apply list_lookup_insert_ne. lia.
Qed.

End Blocks.

Section Accessors.

Implicit Types (self : ModbusBridge) (tag_name : string) (value : Value).

Lemma sized_create : sized _create_modbus_context.
Proof. repeat split. Qed.

Lemma set_tag_value_mappings self tag_name value :
  tag_mappings (snd (set_tag_value self tag_name value)) = tag_mappings self.
Proof.
  unfold set_tag_value. destruct (tag_mappings self !! tag_name); [|done].
  repeat case_match; done.
Qed.

Lemma set_tag_value_sized self tag_name value :
  sized (context self) -> sized (context (snd (set_tag_value self tag_name value))).
Proof.
  intros (Hdi & Hco & Hhr & Hir). unfold set_tag_value.
  destruct (tag_mappings self !! tag_name); [|done].
  repeat case_match; repeat split; simpl; rewrite ?length_setValues; done.
Qed.

Lemma update_sensor_mappings self item :
  tag_mappings (update_sensor self item) = tag_mappings self.
Proof.
  destruct item as [tag_name value]. unfold update_sensor.
  destruct (tag_mappings self !! tag_name); [|done].
  repeat case_match; done.
Qed.

Lemma update_sensor_sized self item :
  sized (context self) -> sized (context (update_sensor self item)).
Proof.
  intros (Hdi & Hco & Hhr & Hir). destruct item as [tag_name value].
  unfold update_sensor. destruct (tag_mappings self !! tag_name); [|done].
  repeat case_match; repeat split; simpl; rewrite ?length_setValues; done.
Qed.

(** A write to a tag of a table other than [COIL] and [HR] raises and
    leaves the bridge as it was. *)
Lemma set_tag_value_not_writable self tag_name mapping value :
  tag_mappings self !! tag_name = Some mapping ->
  m_table mapping <> "COIL" -> m_table mapping <> "HR" ->
  set_tag_value self tag_name value
  = (Raise (ValueError (CannotWriteTable (m_table mapping))), self).
Proof.
  intros Hreg Hcoil Hhr. unfold set_tag_value. rewrite Hreg.
  apply String.eqb_neq in Hcoil, Hhr. by rewrite Hcoil, Hhr.
Qed.

(** A write that succeeds was a write to a coil or a holding register. *)
Lemma set_tag_value_ok_writable self tag_name value self' :
  set_tag_value self tag_name value = (Ok tt, self') ->
  exists mapping, tag_mappings self !! tag_name = Some mapping
                  /\ (m_table mapping = "COIL" \/ m_table mapping = "HR").
Proof.
  unfold set_tag_value. destruct (tag_mappings self !! tag_name) as [mapping|]; [|done].
  destruct (String.eqb_spec (m_table mapping) "COIL") as [Hcoil|_].
  { intros _. eauto. }
  destruct (String.eqb_spec (m_table mapping) "HR") as [Hhr|_]; [|done].
  intros _. eauto.
Qed.

Lemma update_sensors_sized self (sensor_values : list (string * Value)) :
  sized (context self) ->
  sized (context (snd (update_sensors self sensor_values))).
Proof.
  unfold update_sensors. cbn [snd]. revert self.
  induction sensor_values as [|item rest IH]; intros self Hsized; [done|].
  simpl. by apply IH, update_sensor_sized.
Qed.

(** The store of a bridge that [__init__] constructed has its hundred cells
    per table. *)
Lemma init_sized (py_int : string -> option Z) (fs : Files) (plant_type : string)
  (bridge : ModbusBridge) :
  constructed (snd (__init__ py_int fs plant_type)) = Some bridge ->
  sized (context bridge).
Proof.
  unfold __init__. destruct (_load_modbus_map _ _ _); [|done].
  destruct (_validate_mappings _ _); [|done].
  intros [= <-]. apply sized_create.
Qed.

End Accessors.

(** C7. For every registered tag whose table is the discrete inputs ([DI])
    or the input registers ([IR]), [set_tag_value] raises the "Cannot write
    to table" error and leaves the bridge, and with it the store, unchanged;
    and a [set_tag_value] that succeeds was called on a registered tag of
    the coils ([COIL]) or the holding registers ([HR]). *)
Theorem write_only_to_coils_and_holding_registers
  (self : ModbusBridge) (tag_name : string) (value : Value) :
  (forall mapping,
      tag_mappings self !! tag_name = Some mapping ->
      m_table mapping = "DI" \/ m_table mapping = "IR" ->
      set_tag_value self tag_name value
      = (Raise (ValueError (CannotWriteTable (m_table mapping))), self))
  /\ (forall self',
         set_tag_value self tag_name value = (Ok tt, self') ->
         exists mapping, tag_mappings self !! tag_name = Some mapping
                         /\ (m_table mapping = "COIL" \/ m_table mapping = "HR")).
Proof.
  split.
  - intros mapping Hreg Htable.
    apply set_tag_value_not_writable; [done | |];
      destruct Htable as [-> | ->]; discriminate.
  - apply set_tag_value_ok_writable.
Qed.

Lemma write_only_to_coils_and_holding_registers_witness :
  set_tag_value Examples.bottle_bridge "SENSOR_LIMIT_SWITCH" (VBool true)
  = (Raise (ValueError (CannotWriteTable "DI")), Examples.bottle_bridge)
  /\ exists mapping,
       tag_mappings Examples.bottle_bridge !! "ACT_MOTOR" = Some mapping
       /\ (m_table mapping = "COIL" \/ m_table mapping = "HR").
Proof.
  split.
  - apply (proj1 (write_only_to_coils_and_holding_registers
                    Examples.bottle_bridge "SENSOR_LIMIT_SWITCH" (VBool true))
                 (Examples.mapping "BOOL" "DI" 0 "Sensor")).
    + reflexivity.
    + left. reflexivity.
  - apply (proj2 (write_only_to_coils_and_holding_registers
                    Examples.bottle_bridge "ACT_MOTOR" (VBool true))
                 (snd (set_tag_value Examples.bottle_bridge "ACT_MOTOR" (VBool true)))).
    reflexivity.
Defined.

(** The bridge that [__init__] builds for the far plant is [far_bridge], and
    for the bottle plant [bottle_bridge]: both maps load without error. *)
Lemma init_far_bridge :
  __init__ decimal (Examples.files "far" Examples.far_rows) "far"
  = (Ok tt, {| a_tag_mappings := Some (tag_mappings Examples.far_bridge);
               a_ir_data := Some None;
               a_context := Some _create_modbus_context |}).
Proof. vm_compute. reflexivity. Qed.

Lemma init_bottle_bridge :
  constructed (snd (__init__ decimal (Examples.files "bottle" Examples.bottle_rows)
                             "bottle"))
  = Some Examples.bottle_bridge.
Proof. vm_compute. reflexivity. Qed.

(** C9, as the spec states it, fails: a coil tag at address 150 is loaded
    and registered, the write to it succeeds, and the read that follows
    raises instead of returning the value written. *)
Lemma write_read_roundtrip_fails_past_block :
  constructed (snd (__init__ decimal (Examples.files "far" Examples.far_rows) "far"))
  = Some Examples.far_bridge
  /\ tag_mappings Examples.far_bridge !! "ACT_FAR"
     = Some (Examples.mapping "BOOL" "COIL" 150 "Actuator")
  /\ set_tag_value Examples.far_bridge "ACT_FAR" (VBool true)
     = (Ok tt, Examples.far_bridge)
  /\ get_tag_value Examples.far_bridge "ACT_FAR"
     = (Raise SubscriptError, Examples.far_bridge).
Proof. repeat split; vm_compute; reflexivity. Qed.

(** C9, amended. For every registered tag whose table is [COIL] or [HR] and
    whose address lies in the hundred cells of its block, and for every
    value, [set_tag_value] succeeds and the [get_tag_value] that follows
    returns the value written. *)
Theorem write_read_roundtrip
  (self : ModbusBridge) (tag_name : string) (mapping : Mapping) (value : Value) :
  tag_mappings self !! tag_name = Some mapping ->
  m_table mapping = "COIL" \/ m_table mapping = "HR" ->
  sized (context self) ->
  (0 <= m_address mapping < 100)%Z ->
  exists self',
    set_tag_value self tag_name value = (Ok tt, self')
    /\ get_tag_value self' tag_name = (Ok value, self').
Proof.
  intros Hreg Htable (Hdi & Hco & Hhr & Hir) Hrange.
  unfold set_tag_value. rewrite Hreg.
  destruct Htable as [Htable | Htable]; rewrite Htable; simpl;
    eexists; (split; [reflexivity|]);
    unfold get_tag_value; simpl; rewrite Hreg, Htable; simpl;
    (rewrite getValues0_setValues_eq; [reflexivity|]);
    apply in_block_spec; lia.
Qed.

Lemma write_read_roundtrip_witness :
  exists self',
    set_tag_value Examples.bottle_bridge "CMD_SPEED" (VInt 42) = (Ok tt, self')
    /\ get_tag_value self' "CMD_SPEED" = (Ok (VInt 42), self').
Proof.
  apply (write_read_roundtrip Examples.bottle_bridge "CMD_SPEED"
           (Examples.mapping "INT" "HR" 0 "Command") (VInt 42)).
  - reflexivity.
  - right. reflexivity.
  - apply sized_create.
  - simpl. lia.
Defined.

(** C8, as the spec states it, fails: for the discrete input registered at
    address 150, [update_sensors] succeeds and [set_tag_value] is refused,
    but the read that follows [update_sensors] raises and does not return
    the value. *)
Lemma sensor_update_not_read_back_past_block :
  tag_mappings Examples.far_bridge !! "SENSOR_FAR"
  = Some (Examples.mapping "BOOL" "DI" 150 "Sensor")
  /\ update_sensors Examples.far_bridge [("SENSOR_FAR", VBool true)]
     = (Ok tt, Examples.far_bridge)
  /\ get_tag_value Examples.far_bridge "SENSOR_FAR"
     = (Raise SubscriptError, Examples.far_bridge)
  /\ set_tag_value Examples.far_bridge "SENSOR_FAR" (VBool true)
     = (Raise (ValueError (CannotWriteTable "DI")), Examples.far_bridge).
Proof. repeat split; vm_compute; reflexivity. Qed.

(** C8, amended. For every registered tag of the discrete inputs whose
    address lies in the hundred cells of the block, and for every value,
    [update_sensors] with that one item succeeds and the [get_tag_value]
    that follows returns the value, while [set_tag_value] on the same tag
    raises the "Cannot write to table" error and changes nothing. *)
Theorem update_sensors_bypasses_write_restriction
  (self : ModbusBridge) (tag_name : string) (mapping : Mapping) (value : Value) :
  tag_mappings self !! tag_name = Some mapping ->
  m_table mapping = "DI" ->
  sized (context self) ->
  (0 <= m_address mapping < 100)%Z ->
  (exists self',
      update_sensors self [(tag_name, value)] = (Ok tt, self')
      /\ get_tag_value self' tag_name = (Ok value, self'))
  /\ set_tag_value self tag_name value
     = (Raise (ValueError (CannotWriteTable "DI")), self).
Proof.
  intros Hreg Htable (Hdi & Hco & Hhr & Hir) Hrange. split.
  - unfold update_sensors. simpl. rewrite Hreg, Htable. simpl.
    eexists. split; [reflexivity|].
    unfold get_tag_value. simpl. rewrite Hreg, Htable. simpl.
    rewrite getValues0_setValues_eq; [reflexivity|].
    apply in_block_spec. lia.
  - rewrite <- Htable. apply set_tag_value_not_writable; [done | |];
      rewrite Htable; discriminate.
Qed.

Lemma update_sensors_bypasses_write_restriction_witness :
  (exists self',
      update_sensors Examples.bottle_bridge [("SENSOR_LEVEL_SENSOR", VBool true)]
      = (Ok tt, self')
      /\ get_tag_value self' "SENSOR_LEVEL_SENSOR" = (Ok (VBool true), self'))
  /\ set_tag_value Examples.bottle_bridge "SENSOR_LEVEL_SENSOR" (VBool true)
     = (Raise (ValueError (CannotWriteTable "DI")), Examples.bottle_bridge).
Proof.
  apply (update_sensors_bypasses_write_restriction Examples.bottle_bridge
           "SENSOR_LEVEL_SENSOR" (Examples.mapping "BOOL" "DI" 1 "Sensor")
           (VBool true)).
  - reflexivity.
  - reflexivity.
  - apply sized_create.
  - simpl. lia.
Defined.

Section SensorUpdates.

Implicit Types (self : ModbusBridge) (item : string * Value).

(** One item of [update_sensors] leaves the coils and holding registers
    alone, and changes a cell of the discrete inputs or input registers
    only if it names a registered tag of that table at that address. *)
Lemma update_sensor_co_hr self item :
  co (context (update_sensor self item)) = co (context self)
  /\ hr (context (update_sensor self item)) = hr (context self).
Proof.
  destruct item as [tag_name value]. unfold update_sensor.
  destruct (tag_mappings self !! tag_name); [|done].
  repeat case_match; done.
Qed.

Lemma update_sensor_di self item (i : nat) :
  di (context (update_sensor self item)) !! i = di (context self) !! i
  \/ writes_cell self "DI" (Z.of_nat i) item.
Proof.
  destruct item as [tag_name value]. unfold update_sensor, writes_cell. simpl.
  destruct (tag_mappings self !! tag_name) as [mapping|] eqn:Hreg; [|by left].
  destruct (String.eqb_spec (m_table mapping) "DI") as [Hdi|_].
  - simpl. destruct (decide (Z.of_nat i = m_address mapping)) as [Heq|Hne].
    + right. eauto.
    + left. by apply setValues_lookup_ne.
  - case_match; by left.
Qed.

Lemma update_sensor_ir self item (i : nat) :
  ir (context (update_sensor self item)) !! i = ir (context self) !! i
  \/ writes_cell self "IR" (Z.of_nat i) item.
Proof.
  destruct item as [tag_name value]. unfold update_sensor, writes_cell. simpl.
  destruct (tag_mappings self !! tag_name) as [mapping|] eqn:Hreg; [|by left].
  destruct (String.eqb_spec (m_table mapping) "DI") as [Hdi|_]; [by left|].
  destruct (String.eqb_spec (m_table mapping) "IR") as [Hir|_]; [|by left].
  simpl. destruct (decide (Z.of_nat i = m_address mapping)) as [Heq|Hne].
  - right. eauto.
  - left. by apply setValues_lookup_ne.
Qed.

Lemma writes_cell_mappings self self' table address item :
  tag_mappings self' = tag_mappings self ->
  writes_cell self' table address item -> writes_cell self table address item.
Proof. intros Heq. unfold writes_cell. by rewrite Heq. Qed.

(** An item that is no sensor item is skipped. *)
Lemma update_sensor_skip self item :
  is_sensor_item self item = false -> update_sensor self item = self.
Proof.
  destruct item as [tag_name value]. unfold is_sensor_item, update_sensor. simpl.
  destruct (tag_mappings self !! tag_name) as [mapping|]; [|done].
  intros [-> ->]%orb_false_elim. done.
Qed.

Lemma is_sensor_item_mappings self self' item :
  tag_mappings self' = tag_mappings self ->
  is_sensor_item self' item = is_sensor_item self item.
Proof. intros Heq. unfold is_sensor_item. by rewrite Heq. Qed.

Lemma fold_update_sensor_frame (items : list (string * Value)) self :
  let self' := fold_left update_sensor items self in
  tag_mappings self' = tag_mappings self
  /\ co (context self') = co (context self)
  /\ hr (context self') = hr (context self)
  /\ (forall i : nat,
         di (context self') !! i <> di (context self) !! i ->
         exists item, item ∈ items /\ writes_cell self "DI" (Z.of_nat i) item)
  /\ (forall i : nat,
         ir (context self') !! i <> ir (context self) !! i ->
         exists item, item ∈ items /\ writes_cell self "IR" (Z.of_nat i) item).
Proof.
  revert self. induction items as [|item rest IH]; intros self; simpl.
  { repeat split; intros i Hne; by destruct Hne. }
  destruct (IH (update_sensor self item)) as (Hmap & Hco & Hhr & Hdi & Hir).
  pose proof (update_sensor_mappings self item) as Hmap1.
  destruct (update_sensor_co_hr self item) as [Hco1 Hhr1].
  split; [congruence|]. split; [congruence|]. split; [congruence|].
  split; intros i Hne.
  - destruct (update_sensor_di self item i) as [Hsame | Hwrite].
    + rewrite <- Hsame in Hne. destruct (Hdi i Hne) as (item' & Hin & Hw).
      exists item'. split; [by apply list_elem_of_further|].
      by eapply writes_cell_mappings.
    + exists item. split; [apply list_elem_of_here | done].
  - destruct (update_sensor_ir self item i) as [Hsame | Hwrite].
    + rewrite <- Hsame in Hne. destruct (Hir i Hne) as (item' & Hin & Hw).
      exists item'. split; [by apply list_elem_of_further|].
      by eapply writes_cell_mappings.
    + exists item. split; [apply list_elem_of_here | done].
Qed.

Lemma fold_update_sensor_filter (items : list (string * Value)) self0 self :
  tag_mappings self = tag_mappings self0 ->
  fold_left update_sensor (filter (fun item => is_sensor_item self0 item) items) self
  = fold_left update_sensor items self.
Proof.
  revert self. induction items as [|item rest IH]; intros self Hmap; [done|].
  rewrite filter_cons. simpl.
  destruct (is_sensor_item self0 item) eqn:Hitem.
  - rewrite decide_True by done. simpl. apply IH.
    by rewrite update_sensor_mappings.
  - rewrite decide_False by (by intros []).
    rewrite (update_sensor_skip self item).
    + by apply IH.
    + by rewrite (is_sensor_item_mappings self0 self).
Qed.

End SensorUpdates.

(** C10. For every dict [sensor_values], [update_sensors] raises nothing;
    it leaves the tag catalog, every coil and every holding register as they
    were; a cell of the discrete inputs or of the input registers differs
    afterwards only if an item names a registered tag of that table at that
    address; and the items whose name is unregistered or whose table is
    neither [DI] nor [IR] are skipped: the call does what the call on the
    remaining items does. *)
Theorem update_sensors_frame
  (self : ModbusBridge) (sensor_values : list (string * Value)) :
  exists self',
    update_sensors self sensor_values = (Ok tt, self')
    /\ tag_mappings self' = tag_mappings self
    /\ co (context self') = co (context self)
    /\ hr (context self') = hr (context self)
    /\ (forall i : nat,
           di (context self') !! i <> di (context self) !! i ->
           exists item, item ∈ sensor_values
                        /\ writes_cell self "DI" (Z.of_nat i) item)
    /\ (forall i : nat,
           ir (context self') !! i <> ir (context self) !! i ->
           exists item, item ∈ sensor_values
                        /\ writes_cell self "IR" (Z.of_nat i) item)
    /\ update_sensors self
         (filter (fun item => is_sensor_item self item) sensor_values)
       = (Ok tt, self').
Proof.
  exists (fold_left update_sensor sensor_values self).
  destruct (fold_update_sensor_frame sensor_values self) as (Hmap & Hco & Hhr & Hdi & Hir).
  split; [reflexivity|]. repeat (split; [assumption|]).
  unfold update_sensors. f_equal. by apply fold_update_sensor_filter.
Qed.

(** C6, as the spec states it, fails for [update_sensors]: an item with an
    unregistered tag name is dropped without any error, and the bridge is
    as before. *)
Lemma update_sensors_swallows_unknown_tag :
  tag_mappings Examples.bottle_bridge !! "SENSOR_NO_SUCH_TAG" = None
  /\ update_sensors Examples.bottle_bridge [("SENSOR_NO_SUCH_TAG", VInt 1)]
     = (Ok tt, Examples.bottle_bridge).
Proof. split; vm_compute; reflexivity. Qed.

(** C6, amended. [get_tag_value] and [set_tag_value] raise the "Unknown
    tag" error to the caller for an unregistered name, and [set_tag_value]
    raises the "Cannot write to table" error for a registered tag of any
    table other than [COIL] and [HR]; in each case the bridge is unchanged.
    [update_sensors] raises no error for any input. *)
Theorem access_errors_reach_the_caller
  (self : ModbusBridge) (tag_name : string) (value : Value)
  (sensor_values : list (string * Value)) :
  (tag_mappings self !! tag_name = None ->
   get_tag_value self tag_name = (Raise (ValueError (UnknownTag tag_name)), self)
   /\ set_tag_value self tag_name value
      = (Raise (ValueError (UnknownTag tag_name)), self))
  /\ (forall mapping,
         tag_mappings self !! tag_name = Some mapping ->
         m_table mapping <> "COIL" -> m_table mapping <> "HR" ->
         set_tag_value self tag_name value
         = (Raise (ValueError (CannotWriteTable (m_table mapping))), self))
  /\ fst (update_sensors self sensor_values) = Ok tt.
Proof.
  split; [|split].
  - intros Hnone. unfold get_tag_value, set_tag_value. by rewrite Hnone.
  - intros mapping. apply set_tag_value_not_writable.
  - reflexivity.
Qed.

Lemma access_errors_reach_the_caller_witness :
  (get_tag_value Examples.bottle_bridge "SENSOR_NO_SUCH_TAG"
   = (Raise (ValueError (UnknownTag "SENSOR_NO_SUCH_TAG")), Examples.bottle_bridge)
   /\ set_tag_value Examples.bottle_bridge "SENSOR_NO_SUCH_TAG" (VInt 1)
      = (Raise (ValueError (UnknownTag "SENSOR_NO_SUCH_TAG")), Examples.bottle_bridge))
  /\ set_tag_value Examples.bottle_bridge "SENSOR_FLOW" (VInt 1)
     = (Raise (ValueError (CannotWriteTable "IR")), Examples.bottle_bridge).
Proof.
  split.
  - apply (proj1 (access_errors_reach_the_caller Examples.bottle_bridge
                    "SENSOR_NO_SUCH_TAG" (VInt 1) [])).
    reflexivity.
  - apply (proj1 (proj2 (access_errors_reach_the_caller Examples.bottle_bridge
                           "SENSOR_FLOW" (VInt 1) []))
                 (Examples.mapping "INT" "IR" 0 "Sensor"));
      [reflexivity | discriminate | discriminate].
Defined.

(* ===================================================================== *)
(** * Properties of loading and validation                               *)
(* ===================================================================== *)

Import ValidateMap.

Section ValidatorLoop.

Variable py_int : string -> option Z.
Variable py_int16 : string -> option Z.
Variable policy : Policy.

Implicit Types (st : checks) (tag : Row) (tags : list Row) (i : nat).

Local Abbreviation check_tag := (ValidateMap.check_tag py_int py_int16 policy).
Local Abbreviation check_tags := (ValidateMap.check_tags py_int py_int16 policy).

(** The four outcomes of one row, by whether the row is named and whether
    its key is taken. *)
Lemma check_tag_unnamed st i tag :
  ~ named tag ->
  check_tag st i tag
  = {| addresses := addresses st;
       errors_so_far := errors_so_far st ++ [MissingTagName i];
       warnings_so_far := warnings_so_far st |}.
Proof.
  unfold named. intros Hname. apply dec_stable in Hname.
  unfold ValidateMap.check_tag. by rewrite Hname.
Qed.

(** Errors are only ever appended. *)
Lemma check_tag_errors_grow st i tag :
  exists more, errors_so_far (check_tag st i tag) = errors_so_far st ++ more.
Proof.
  destruct (addresses st !! address_key tag) eqn:Hkey;
    destruct (get_or_empty tag "name" =? EmptyString)%string eqn:Hname;
    unfold_check_tag; repeat case_match; simpl; appended.
Qed.

(** A named row records its key unless the key is taken, and is reported
    if it is. *)
Lemma check_tag_addresses st i tag :
  named tag ->
  addresses (check_tag st i tag)
  = match addresses st !! address_key tag with
    | Some _ => addresses st
    | None => <[address_key tag := get_or_empty tag "name"]> (addresses st)
    end.
Proof.
  intros Hname%String.eqb_neq.
  destruct (addresses st !! address_key tag) eqn:Hkey; by unfold_check_tag.
Qed.

Lemma check_tag_reports_taken_key st i tag used_by :
  named tag ->
  addresses st !! address_key tag = Some used_by ->
  DuplicateAddress i (address_key tag) used_by ∈ errors_so_far (check_tag st i tag).
Proof.
  intros Hname%String.eqb_neq Hkey. unfold_check_tag.
  repeat case_match; set_solver.
Qed.

Lemma check_tags_errors_grow tags st i :
  exists more, errors_so_far (check_tags st i tags) = errors_so_far st ++ more.
Proof.
  revert st i. induction tags as [|tag rest IH]; intros st i; simpl.
  - exists []. by rewrite app_nil_r.
  - destruct (IH (check_tag st i tag) (S i)) as [more ->].
    destruct (check_tag_errors_grow st i tag) as [more' ->].
    exists (more' ++ more). by rewrite app_assoc.
Qed.

(** Keys, once recorded, stay recorded. *)
Lemma check_tag_addresses_grow st i tag key :
  is_Some (addresses st !! key) -> is_Some (addresses (check_tag st i tag) !! key).
Proof.
  intros Hkey. destruct (decide (named tag)) as [Hname | Hname].
  - rewrite check_tag_addresses by done.
    destruct (addresses st !! address_key tag); [done|].
    rewrite lookup_insert_is_Some. destruct (decide (address_key tag = key)); auto.
  - by rewrite check_tag_unnamed.
Qed.

Lemma check_tag_records_key st i tag :
  named tag -> is_Some (addresses (check_tag st i tag) !! address_key tag).
Proof.
  intros Hname. rewrite check_tag_addresses by done.
  destruct (addresses st !! address_key tag) eqn:Hkey; [by rewrite Hkey|].
  rewrite lookup_insert_eq. eauto.
Qed.

(** A named row whose key is recorded already is reported, under its row
    number, wherever it comes in the rest of the file. *)
Lemma check_tags_reports_taken_key tags st i j tag :
  tags !! j = Some tag -> named tag ->
  is_Some (addresses st !! address_key tag) ->
  exists used_by,
    DuplicateAddress (i + j) (address_key tag) used_by
    ∈ errors_so_far (check_tags st i tags).
Proof.
  revert st i j. induction tags as [|head rest IH]; intros st i j Hj Hname Hkey; [done|].
  simpl. destruct j as [|j]; simpl in Hj.
  - injection Hj as ->. destruct Hkey as [used_by Hkey].
    destruct (check_tags_errors_grow rest (check_tag st i tag) (S i)) as [more ->].
    exists used_by. rewrite Nat.add_0_r. apply elem_of_app. left.
    by apply check_tag_reports_taken_key.
  - replace (i + S j)%nat with (S i + j)%nat by lia.
    apply IH; [done | done |]. by apply check_tag_addresses_grow.
Qed.

(** A loop that ends without an error met only named rows with fresh
    keys. *)
Lemma check_tags_clean tags st i :
  errors_so_far (check_tags st i tags) = [] ->
  NoDup (address_key <$> tags)
  /\ Forall named tags
  /\ forall tag, tag ∈ tags -> addresses st !! address_key tag = None.
Proof.
  revert st i. induction tags as [|tag rest IH]; intros st i Hclean; simpl in *.
  { split; [constructor|]. split; [constructor|]. intros tag Hin. inversion Hin. }
  destruct (IH _ _ Hclean) as (Hnodup & Hnamed & Hfresh).
  destruct (check_tags_errors_grow rest (check_tag st i tag) (S i)) as [more Hmore].
  rewrite Hclean in Hmore. symmetry in Hmore. apply app_eq_nil in Hmore as [Hhere _].
  destruct (decide (named tag)) as [Hname | Hname]; cycle 1.
  { rewrite check_tag_unnamed in Hhere by done. simpl in Hhere.
    by apply app_eq_nil in Hhere as [_ ?]. }
  pose proof (check_tag_addresses st i tag Hname) as Haddr.
  destruct (addresses st !! address_key tag) as [used_by|] eqn:Hkey.
  { pose proof (check_tag_reports_taken_key st i tag used_by Hname Hkey) as Hin.
    rewrite Hhere in Hin. inversion Hin. }
  split; [|split].
  - constructor; [|done]. intros Hin.
    apply list_elem_of_fmap in Hin as (tag' & Heq & Hin).
    specialize (Hfresh tag' Hin). rewrite Haddr, <- Heq, lookup_insert_eq in Hfresh.
    done.
  - by constructor.
  - intros tag' [-> | Hin]%elem_of_cons; [done|].
    specialize (Hfresh tag' Hin). rewrite Haddr in Hfresh.
    by apply lookup_insert_None in Hfresh as [? _].
Qed.

(** Of two named rows with the same key, the later one is reported. *)
Lemma check_tags_reports_second tags st i j1 j2 tag1 tag2 :
  tags !! j1 = Some tag1 -> tags !! j2 = Some tag2 -> (j1 < j2)%nat ->
  named tag1 -> named tag2 -> address_key tag1 = address_key tag2 ->
  exists used_by,
    DuplicateAddress (i + j2) (address_key tag2) used_by
    ∈ errors_so_far (check_tags st i tags).
Proof.
  revert st i j1 j2.
  induction tags as [|head rest IH]; intros st i j1 j2 H1 H2 Hlt Hn1 Hn2 Hkey; [done|].
  destruct j2 as [|j2]; [lia|]. simpl in H2. simpl.
  replace (i + S j2)%nat with (S i + j2)%nat by lia.
  destruct j1 as [|j1]; simpl in H1.
  - injection H1 as ->.
    apply check_tags_reports_taken_key; [done | done |].
    rewrite <- Hkey. by apply check_tag_records_key.
  - eapply IH; eauto. lia.
Qed.

End ValidatorLoop.

Lemma address_key_of_pair (tags : list Row) :
  address_key <$> tags
  = (fun pair => (fst pair ++ ":" ++ snd pair)%string) <$> (address_pair <$> tags).
Proof. by rewrite <- list_fmap_compose. Qed.

(** C4, as the spec states it, fails for the loader: the map in which
    [ACT_MOTOR] and [ACT_NOZZLE] both sit at coil 0 loads without any error,
    both tags are registered at that address, and [__init__] completes. *)
Lemma loader_accepts_shared_address :
  exists mappings,
    _load_modbus_map decimal (Examples.files "bottle" Examples.colliding_rows) "bottle"
    = Ok mappings
    /\ mappings !! "ACT_MOTOR" = Some (Examples.mapping "BOOL" "COIL" 0 "Actuator")
    /\ mappings !! "ACT_NOZZLE" = Some (Examples.mapping "BOOL" "COIL" 0 "Actuator")
    /\ fst (__init__ decimal (Examples.files "bottle" Examples.colliding_rows) "bottle")
       = Ok tt.
Proof.
  eexists. split; [vm_compute; reflexivity|].
  repeat split; vm_compute; reflexivity.
Qed.

(** C4, amended. The uniqueness of addresses is checked by the validator
    [validate_modbus_map], not by the loader.  Whenever the validator
    returns its report for a map file: if the report says the map is valid,
    no two rows of the file have the same table and address texts; and of
    two named rows with the same table and address texts the later one is
    reported with a "Duplicate address" error under its row number, so the
    report says the map is not valid. *)
Theorem validator_rejects_shared_address
  (py_int py_int16 : string -> option Z) (policy : Policy)
  (csv_files : gmap string (list Row)) (map_file : string)
  (tags : list Row) (report : Report) :
  csv_files !! map_file = Some tags ->
  validate_modbus_map py_int py_int16 policy csv_files map_file = Ok report ->
  (valid report = true -> NoDup (address_pair <$> tags))
  /\ (forall (j1 j2 : nat) (tag1 tag2 : Row),
         tags !! j1 = Some tag1 -> tags !! j2 = Some tag2 -> (j1 < j2)%nat ->
         named tag1 -> named tag2 -> address_pair tag1 = address_pair tag2 ->
         valid report = false
         /\ exists used_by,
              DuplicateAddress (S j2) (address_key tag2) used_by ∈ errors report).
Proof.
  intros Hfile. unfold validate_modbus_map. rewrite Hfile.
  destruct tags as [|first rest]; [done|].
  set (start := Build_checks _ _ _).
  set (final := check_tags py_int py_int16 policy start 1 (first :: rest)).
  intros [= <-]. cbn [valid errors]. split.
  - intros Hvalid%bool_decide_eq_true_1%nil_length_inv.
    apply (check_tags_clean py_int py_int16 policy (first :: rest))
      in Hvalid as (Hnodup & _ & _).
    rewrite address_key_of_pair in Hnodup.
    by apply NoDup_fmap_1 in Hnodup.
  - intros j1 j2 tag1 tag2 H1 H2 Hlt Hn1 Hn2 Hpair.
    assert (address_key tag1 = address_key tag2) as Hkey.
    { unfold address_key. by injection Hpair as -> ->. }
    destruct (check_tags_reports_second py_int py_int16 policy (first :: rest)
                start 1 j1 j2 tag1 tag2 H1 H2 Hlt Hn1 Hn2 Hkey)
      as [used_by Hin].
    fold final in Hin. split; [|exists used_by; exact Hin].
    apply bool_decide_eq_false_2. intros Hnil%nil_length_inv.
    rewrite Hnil in Hin. inversion Hin.
Qed.

Lemma validator_rejects_shared_address_witness :
  exists report,
    validate_modbus_map decimal hexadecimal Examples.policy
      {[ "maps/bottle/modbus_map.csv" := Examples.colliding_rows ]}
      "maps/bottle/modbus_map.csv" = Ok report
    /\ valid report = false
    /\ exists used_by, DuplicateAddress 2 "COIL:0" used_by ∈ errors report.
Proof.
  destruct (validate_modbus_map decimal hexadecimal Examples.policy
              {[ "maps/bottle/modbus_map.csv" := Examples.colliding_rows ]}
              "maps/bottle/modbus_map.csv") as [report|e] eqn:Hreport;
    [|vm_compute in Hreport; discriminate].
  exists report. split; [reflexivity|].
  assert ((({[ "maps/bottle/modbus_map.csv" := Examples.colliding_rows ]}
              : gmap string (list Row)) !! "maps/bottle/modbus_map.csv")
          = Some Examples.colliding_rows) as Hfile by (vm_compute; reflexivity).
  apply (proj2 (validator_rejects_shared_address decimal hexadecimal
                  Examples.policy
                  {[ "maps/bottle/modbus_map.csv" := Examples.colliding_rows ]}
                  "maps/bottle/modbus_map.csv" Examples.colliding_rows report
                  Hfile Hreport)
               0%nat 1%nat
               (Examples.row "ACT_MOTOR" "BOOL" "COIL" "0" "Actuator")
               (Examples.row "ACT_NOZZLE" "BOOL" "COIL" "0" "Actuator"));
    [reflexivity | reflexivity | lia | | | reflexivity];
    unfold named; vm_compute; discriminate.
Defined.

Section RolePolicy.

Variable py_int : string -> option Z.

(** With IR data that is present and not empty, a tag whose role is not the
    one its prefix requires makes [__init__] leave with [sys.exit(1)], and
    no context has been created by then. *)
Lemma init_exits_on_role_violation
  (fs : Files) (plant_type : string) (mappings : gmap string Mapping)
  (entry : string * ir_entry) (doc : list (string * ir_entry))
  (tag_name : string) (mapping : Mapping) :
  _load_modbus_map py_int fs plant_type = Ok mappings ->
  _load_ir_data fs plant_type = Some (entry :: doc) ->
  mappings !! tag_name = Some mapping ->
  _validate_tag_role tag_name mapping = false ->
  __init__ py_int fs plant_type
  = (Raise (SystemExit 1),
     {| a_tag_mappings := Some mappings;
        a_ir_data := Some (Some (entry :: doc));
        a_context := None |}).
Proof.
  intros Hload Hir Hreg Hrole. unfold __init__. rewrite Hload, Hir.
  unfold _validate_mappings.
  destruct (forallb _ (map_to_list mappings)) eqn:Hall; [|done].
  rewrite forallb_forall in Hall.
  specialize (Hall (tag_name, mapping)). simpl in Hall.
  rewrite Hrole in Hall. discriminate Hall.
  apply list_elem_of_In, elem_of_map_to_list. done.
Qed.

(** Without IR data, or with an empty IR document, [_validate_mappings]
    returns before the role check, and [__init__] creates the context
    whatever roles the map declares. *)
Lemma init_skips_role_check_without_ir
  (fs : Files) (plant_type : string) (mappings : gmap string Mapping) :
  _load_modbus_map py_int fs plant_type = Ok mappings ->
  _load_ir_data fs plant_type = None \/ _load_ir_data fs plant_type = Some [] ->
  __init__ py_int fs plant_type
  = (Ok tt,
     {| a_tag_mappings := Some mappings;
        a_ir_data := Some (_load_ir_data fs plant_type);
        a_context := Some _create_modbus_context |}).
Proof.
  intros Hload Hir. unfold __init__. rewrite Hload.
  by destruct Hir as [-> | ->].
Qed.

End RolePolicy.

(** C5: the code at the failing input.  The map declares
    [SENSOR_LEVEL_SENSOR] with the role [Actuator], which
    [_validate_tag_role] rejects, and the plant has no IR file: [__init__]
    completes, registers the tag with that role, and creates the context.
    With an IR file in place the same map makes [__init__] exit before the
    context is created. *)
Theorem role_check_skipped_without_ir_file :
  _validate_tag_role "SENSOR_LEVEL_SENSOR"
    (Examples.mapping "BOOL" "DI" 1 "Actuator") = false
  /\ (exists mappings,
         __init__ decimal (Examples.files "bottle" Examples.misdeclared_rows) "bottle"
         = (Ok tt, {| a_tag_mappings := Some mappings;
                      a_ir_data := Some None;
                      a_context := Some _create_modbus_context |})
         /\ mappings !! "SENSOR_LEVEL_SENSOR"
            = Some (Examples.mapping "BOOL" "DI" 1 "Actuator"))
  /\ (let fs := {| csv_files := csv_files (Examples.files "bottle" Examples.misdeclared_rows);
                   json_files := {[ ir_file "bottle" := Examples.some_ir ]} |} in
      fst (__init__ decimal fs "bottle") = Raise (SystemExit 1)
      /\ a_context (snd (__init__ decimal fs "bottle")) = None).
Proof.
  split; [reflexivity|]. split.
  - eexists. split; vm_compute; reflexivity.
  - split; vm_compute; reflexivity.
Qed.

(* ===================================================================== *)
(** * Properties of the physics engines                                  *)
(* ===================================================================== *)

Import Physics.

Section RefineryPhase.

Import Refinery.
Context {R : Type} {N : Num R}.

Implicit Types (self : OilRefineryPhysics R) (dt : R)
  (inputs : gmap string Value) (t : @tank R).

(** The three steps of a tick and the phase: feeding and the spill check
    never touch the phase or the processed total, and in phase 0 the phase
    step does nothing at all. *)
Lemma feed_phase self dt pump t :
  phase (feed self dt pump t) = phase t
  /\ processed (feed self dt pump t) = processed t.
Proof. unfold feed. by destruct (truthy pump). Qed.

Lemma spill_phase self t :
  phase (spill self t) = phase t /\ processed (spill self t) = processed t.
Proof. unfold spill. by case_match. Qed.

Lemma process_idle self dt outlet sep waste t :
  phase t = 0%Z -> process self dt outlet sep waste t = t.
Proof. intros Hidle. unfold process. by rewrite Hidle. Qed.

Lemma update_idle self dt inputs :
  processing_phase self = 0%Z ->
  processing_phase (snd (update self dt inputs)) = 0%Z
  /\ oil_processed (snd (update self dt inputs)) = oil_processed self.
Proof.
  intros Hidle. unfold update. cbn [snd processing_phase oil_processed].
  set (t0 := Build_tank _ _ _ _).
  set (t1 := feed _ _ _ t0).
  destruct (feed_phase self dt (get inputs "ACT_FEED_PUMP") t0) as [Hp1 Hq1].
  fold t1 in Hp1, Hq1.
  rewrite (process_idle self dt _ _ _ t1) by (by rewrite Hp1).
  destruct (spill_phase self t1) as [-> ->]. by rewrite Hp1, Hq1.
Qed.

Lemma run_idle (ticks : list (R * gmap string Value)) self :
  processing_phase self = 0%Z ->
  processing_phase (run self ticks) = 0%Z
  /\ oil_processed (run self ticks) = oil_processed self.
Proof.
  revert self. induction ticks as [|[dt inputs] rest IH]; intros self Hidle; [done|].
  change (run self ((dt, inputs) :: rest))
    with (run (snd (update self dt inputs)) rest).
  destruct (update_idle self dt inputs Hidle) as [Hphase Hprocessed].
  destruct (IH _ Hphase) as [Hphase' Hprocessed'].
  split; [exact Hphase' | by rewrite Hprocessed'].
Qed.

End RefineryPhase.

(** C2. A fresh refinery engine is in phase 0, and for every number
    representation and every sequence of ticks, whatever their [dt] and
    inputs, the engine is still in phase 0 afterwards and its processed
    total is still the initial [0.0]. Every state the engine reaches from
    its initial state is such a state, so the Processing (2) and Emptying
    (3) branches are never entered. *)
Theorem refinery_stays_idle
  {R : Type} {N : Num R} (ticks : list (R * gmap string Value)) :
  Refinery.processing_phase (Refinery.__init__ (R:=R)) = 0%Z
  /\ Refinery.processing_phase (Refinery.run Refinery.__init__ ticks) = 0%Z
  /\ Refinery.oil_processed (Refinery.run Refinery.__init__ ticks) = lit 0.0.
Proof.
  split; [reflexivity|]. by apply run_idle.
Qed.

Section RationalEngines.

Local Open Scope Q_scope.

(** Comparisons of the exact instance. *)
Lemma Q_gt_false (x y : Q) : x <= y -> (x >? y)%num = false.
Proof. intros Hle. cbn. by rewrite negb_false_iff, Qle_bool_iff. Qed.

Lemma Q_min_le (a b : Q) : Physics.min a b <= a.
Proof.
  unfold Physics.min. cbn. destruct (Qle_bool a b) eqn:Hab; cbn.
  - apply Qle_refl.
  - apply Qlt_le_weak, Qnot_le_lt. intros Hle.
    apply Qle_bool_iff in Hle. congruence.
Qed.

(** ** The refinery never records a spill

    A tick that starts in phase 0 with the tank at or below its capacity
    ends the same way, with the spilled total untouched: the feed step has
    already cut the level back to the capacity when the spill check runs. *)
Lemma refinery_update_no_spill
  (self : Refinery.OilRefineryPhysics Q) (dt : Q) (inputs : gmap string Value) :
  Refinery.processing_phase self = 0%Z ->
  Refinery.tank_level self <= Refinery.tank_capacity self ->
  let after := snd (Refinery.update self dt inputs) in
  Refinery.oil_spilled after = Refinery.oil_spilled self
  /\ Refinery.tank_level after <= Refinery.tank_capacity after
  /\ Refinery.tank_capacity after = Refinery.tank_capacity self
  /\ Refinery.processing_phase after = 0%Z.
Proof.
  intros Hidle Hroom. unfold Refinery.update. cbv zeta.
  cbn [snd Refinery.oil_spilled Refinery.tank_level Refinery.tank_capacity
       Refinery.processing_phase].
  set (t0 := Refinery.Build_tank _ _ _ _).
  set (t1 := Refinery.feed self dt _ t0).
  assert (Refinery.level t1 <= Refinery.tank_capacity self
          /\ Refinery.spilled t1 = Refinery.oil_spilled self
          /\ Refinery.phase t1 = 0%Z) as (Hlevel & Hspilled & Hphase).
  { subst t1 t0. unfold Refinery.feed. case_match; cbn; [|done].
    split; [apply Q_min_le | done]. }
  rewrite (process_idle self dt _ _ _ t1 Hphase).
  unfold Refinery.spill. rewrite (Q_gt_false _ _ Hlevel). done.
Qed.

Lemma refinery_run_no_spill (ticks : list (Q * gmap string Value))
  (self : Refinery.OilRefineryPhysics Q) :
  Refinery.processing_phase self = 0%Z ->
  Refinery.tank_level self <= Refinery.tank_capacity self ->
  Refinery.oil_spilled (Refinery.run self ticks) = Refinery.oil_spilled self
  /\ Refinery.tank_level (Refinery.run self ticks) <= Refinery.tank_capacity self.
Proof.
  revert self. induction ticks as [|[dt inputs] rest IH]; intros self Hidle Hroom; [done|].
  change (Refinery.run self ((dt, inputs) :: rest))
    with (Refinery.run (snd (Refinery.update self dt inputs)) rest).
  destruct (refinery_update_no_spill self dt inputs Hidle Hroom)
    as (Hspilled & Hroom' & Hcapacity & Hidle').
  destruct (IH _ Hidle' Hroom') as [Hs Hl].
  rewrite Hs, Hspilled. split; [done|]. by rewrite <- Hcapacity.
Qed.

(** ** The bottle on the running conveyor *)

Lemma bottle_motor_step
  (self : Bottle.BottleFillingPhysics Q) (dt : Q) (inputs : gmap string Value) :
  truthy (get inputs "ACT_MOTOR") = true ->
  truthy (get inputs "ACT_NOZZLE") = false ->
  Bottle.bottle_level self == 0 ->
  Bottle.bottle_position self + 0.25 * dt <= 600 ->
  Bottle.bottle_position (snd (Bottle.update self dt inputs))
  == Bottle.bottle_position self + 0.25 * dt
  /\ Bottle.bottle_level (snd (Bottle.update self dt inputs)) == 0.
Proof.
  intros Hmotor Hnozzle Hlevel Hroom.
  unfold Bottle.update. cbv zeta. rewrite Hmotor, Hnozzle. cbn [andb].
  rewrite (Q_gt_false (Bottle.bottle_level self) (lit 0)) by (by rewrite Hlevel).
  rewrite (Q_gt_false (Bottle.bottle_position self + lit 0.25 * dt)%num (lit 600))
    by exact Hroom.
  cbn [snd Bottle.bottle_position Bottle.bottle_level].
  split; [reflexivity | exact Hlevel].
Qed.

(** With the motor on and the nozzle off, an empty bottle advances by
    [0.25 * dt] per tick and stays empty, as long as it has not passed the
    end of the line at 600. *)
Lemma bottle_motor_run (dt : Q) (inputs : gmap string Value) (n : nat) :
  truthy (get inputs "ACT_MOTOR") = true ->
  truthy (get inputs "ACT_NOZZLE") = false ->
  0 <= dt ->
  forall self : Bottle.BottleFillingPhysics Q,
    Bottle.bottle_level self == 0 ->
    Bottle.bottle_position self + inject_Z (Z.of_nat n) * (0.25 * dt) <= 600 ->
    Bottle.bottle_position (Bottle.run self (repeat (dt, inputs) n))
    == Bottle.bottle_position self + inject_Z (Z.of_nat n) * (0.25 * dt)
    /\ Bottle.bottle_level (Bottle.run self (repeat (dt, inputs) n)) == 0.
Proof.
  intros Hmotor Hnozzle Hdt. induction n as [|n IH]; intros self Hlevel Hroom.
  { split; [|exact Hlevel]. cbn [repeat Bottle.run fold_left].
    change (inject_Z (Z.of_nat 0)) with 0. lra. }
  change (Bottle.run self (repeat (dt, inputs) (S n)))
    with (Bottle.run (snd (Bottle.update self dt inputs)) (repeat (dt, inputs) n)).
  assert (inject_Z (Z.of_nat (S n)) == inject_Z (Z.of_nat n) + 1) as Hsucc.
  { rewrite Nat2Z.inj_succ. unfold Z.succ. rewrite inject_Z_plus. reflexivity. }
  rewrite Hsucc in Hroom. rewrite Hsucc.
  assert (0 <= inject_Z (Z.of_nat n) * (0.25 * dt)) as Hnonneg.
  { apply Qmult_le_0_compat; [|lra].
    change 0 with (inject_Z 0). rewrite <- Zle_Qle. lia. }
  destruct (bottle_motor_step self dt inputs Hmotor Hnozzle Hlevel)
    as [Hpos1 Hlevel1]; [lra|].
  destruct (IH (snd (Bottle.update self dt inputs)) Hlevel1) as [Hpos Hlev].
  { rewrite Hpos1. lra. }
  split; [|exact Hlev]. rewrite Hpos, Hpos1. ring.
Qed.

End RationalEngines.

Section EngineInputs.

Context {R : Type} {N : Num R}.

(** The bottle engine reads its inputs through the truth of [ACT_MOTOR]
    and [ACT_NOZZLE] only. *)
Lemma bottle_update_inputs
  (self : Bottle.BottleFillingPhysics R) (dt : R) (inputs inputs' : gmap string Value) :
  truthy (get inputs "ACT_MOTOR") = truthy (get inputs' "ACT_MOTOR") ->
  truthy (get inputs "ACT_NOZZLE") = truthy (get inputs' "ACT_NOZZLE") ->
  Bottle.update self dt inputs = Bottle.update self dt inputs'.
Proof.
  intros Hmotor Hnozzle. unfold Bottle.update. cbv zeta.
  by rewrite Hmotor, Hnozzle.
Qed.

Lemma bottle_run_inputs
  (dt : R) (inputs inputs' : gmap string Value) (n : nat)
  (self : Bottle.BottleFillingPhysics R) :
  truthy (get inputs "ACT_MOTOR") = truthy (get inputs' "ACT_MOTOR") ->
  truthy (get inputs "ACT_NOZZLE") = truthy (get inputs' "ACT_NOZZLE") ->
  Bottle.run self (repeat (dt, inputs) n) = Bottle.run self (repeat (dt, inputs') n).
Proof.
  intros Hmotor Hnozzle. revert self. induction n as [|n IH]; intros self; [done|].
  change (Bottle.run self (repeat (dt, inputs) (S n)))
    with (Bottle.run (snd (Bottle.update self dt inputs)) (repeat (dt, inputs) n)).
  change (Bottle.run self (repeat (dt, inputs') (S n)))
    with (Bottle.run (snd (Bottle.update self dt inputs')) (repeat (dt, inputs') n)).
  by rewrite IH, (bottle_update_inputs self dt inputs inputs').
Qed.

End EngineInputs.

(** C1: the code at the failing input.  The tank is at 95 of 100, the feed
    pump is on and [dt] is 30, so that the feed increment [k_feed * dt] is
    6, more than the 5 that are left.  In exact arithmetic and in binary64
    alike the tick ends with the level at the capacity and the spilled total
    still at zero: the feed step cuts the level back to the capacity, and
    the spill check, which runs last, finds nothing above it. *)
Theorem overflow_tick_records_no_spill :
  (let self := Examples.refinery_at (R:=Q) (lit 95) in
   let after := snd (Refinery.update self (lit 30) Examples.feed_pump_on) in
   (5 < Refinery.k_feed self * 30)%Q
   /\ (Refinery.tank_capacity self == 100)%Q
   /\ (Refinery.tank_level after == 100)%Q
   /\ (Refinery.oil_spilled after == 0)%Q)
  /\ (let self := Examples.refinery_at (R:=float) (lit 95) in
      let after := snd (Refinery.update self (lit 30) Examples.feed_pump_on) in
      (lit 5 <? Refinery.k_feed self * lit 30)%num = true
      /\ Refinery.tank_capacity self = lit 100
      /\ Refinery.tank_level after = lit 100
      /\ Refinery.oil_spilled after = lit 0).
Proof.
  split; cbv zeta; repeat split; vm_compute; reflexivity.
Qed.

(** C3, as the spec states it, fails: after the ten ticks the position is
    130.05, which is 0.45 short of the 130.5 the spec names; in binary64 it
    is a double below 130.051. *)
Lemma bottle_position_after_ten_ticks_is_not_130_5 :
  (let after := Bottle.run (Examples.bottle_at (R:=Q) (lit 130) (lit 0))
                           (repeat (0.02%Q, Examples.motor_on) 10) in
   (Bottle.bottle_position after == 130.05)%Q
   /\ (130.5 - Bottle.bottle_position after == 0.45)%Q)
  /\ (let after := Bottle.run (Examples.bottle_at (R:=float) (lit 130) (lit 0))
                              (repeat (lit 0.02, Examples.motor_on) 10) in
      (Bottle.bottle_position after <? lit 130.051)%num = true).
Proof.
  split; cbv zeta; repeat split; vm_compute; reflexivity.
Qed.

(** C3, amended. Starting at position 130 and level 0, with the motor
    actuator on and the nozzle actuator off, after ten ticks of [dt = 0.02]
    the position is 130 + 10 * 0.25 * 0.02, that is 130.05, and the level
    is 0: exactly so in exact arithmetic, and in binary64 with the position
    within a billionth of 130.05 and the level exactly 0. *)
Theorem bottle_ten_ticks_motor_only :
  (forall (self : Bottle.BottleFillingPhysics Q) (inputs : gmap string Value),
      (Bottle.bottle_position self == 130)%Q ->
      (Bottle.bottle_level self == 0)%Q ->
      truthy (get inputs "ACT_MOTOR") = true ->
      truthy (get inputs "ACT_NOZZLE") = false ->
      let after := Bottle.run self (repeat (0.02%Q, inputs) 10) in
      (Bottle.bottle_position after == 130 + 10 * 0.25 * 0.02)%Q
      /\ (Bottle.bottle_position after == 130.05)%Q
      /\ (Bottle.bottle_level after == 0)%Q)
  /\ (forall (self : Bottle.BottleFillingPhysics float) (inputs : gmap string Value),
         Bottle.bottle_position self = lit 130 ->
         Bottle.bottle_level self = lit 0 ->
         truthy (get inputs "ACT_MOTOR") = true ->
         truthy (get inputs "ACT_NOZZLE") = false ->
         let after := Bottle.run self (repeat (lit 0.02, inputs) 10) in
         (lit 130.049999999 <? Bottle.bottle_position after)%num = true
         /\ (Bottle.bottle_position after <? lit 130.050000001)%num = true
         /\ Bottle.bottle_level after = lit 0).
Proof.
  split.
  - intros self inputs Hposition Hlevel Hmotor Hnozzle after.
    destruct (bottle_motor_run 0.02 inputs 10 Hmotor Hnozzle ltac:(lra) self Hlevel)
      as [Hafter Hempty].
    { rewrite Hposition. vm_compute. discriminate. }
    fold after in Hafter, Hempty. rewrite Hposition in Hafter.
    split; [|split; [|exact Hempty]]; rewrite Hafter; vm_compute; reflexivity.
  - intros self inputs Hposition Hlevel Hmotor Hnozzle.
    rewrite (bottle_run_inputs (lit 0.02) inputs Examples.motor_on 10 self)
      by (by rewrite ?Hmotor, ?Hnozzle).
    destruct self. cbn in Hposition, Hlevel. subst.
    cbv zeta. repeat split; vm_compute; reflexivity.
Qed.

Lemma bottle_ten_ticks_motor_only_witness :
  (let after := Bottle.run (Examples.bottle_at (R:=Q) (lit 130) (lit 0))
                           (repeat (0.02%Q, Examples.motor_on) 10) in
   (Bottle.bottle_position after == 130 + 10 * 0.25 * 0.02)%Q
   /\ (Bottle.bottle_position after == 130.05)%Q
   /\ (Bottle.bottle_level after == 0)%Q)
  /\ (let after := Bottle.run (Examples.bottle_at (R:=float) (lit 130) (lit 0))
                              (repeat (lit 0.02, Examples.motor_on) 10) in
      (lit 130.049999999 <? Bottle.bottle_position after)%num = true
      /\ (Bottle.bottle_position after <? lit 130.050000001)%num = true
      /\ Bottle.bottle_level after = lit 0).
Proof.
  split.
  - apply (proj1 bottle_ten_ticks_motor_only
                 (Examples.bottle_at (R:=Q) (lit 130) (lit 0)) Examples.motor_on);
      reflexivity.
  - apply (proj2 bottle_ten_ticks_motor_only
                 (Examples.bottle_at (R:=float) (lit 130) (lit 0)) Examples.motor_on);
      reflexivity.
Defined.

(* ===================================================================== *)
(** * Further properties of the process state store                      *)
(* ===================================================================== *)

Section StoreAlgebra.

Implicit Types (self : ModbusBridge) (tag_name : string) (value : Value)
  (block : list Value) (address : Z).

Lemma getValues0_setValues_ne block address address' value :
  address <> address' ->
  getValues0 (setValues block address value) address' = getValues0 block address'.
Proof.
  intros Hne. unfold getValues0. rewrite in_block_setValues.
  destruct (in_block block address') eqn:Hin'; [|done].
  unfold setValues. destruct (in_block block address) eqn:Hin; [|done].
  apply in_block_spec in Hin, Hin'.
  rewrite list_lookup_insert_ne by lia. done.
Qed.

Lemma in_block_insert block (i : nat) value address :
  in_block (<[i := value]> block) address = in_block block address.
Proof. unfold in_block. by rewrite length_insert. Qed.

Lemma setValues_setValues block address value value' :
  setValues (setValues block address value) address value'
  = setValues block address value'.
Proof.
  unfold setValues. destruct (in_block block address) eqn:Hin.
  - rewrite in_block_insert, Hin. apply list_insert_insert_eq.
  - by rewrite Hin.
Qed.

Lemma setValues_commute block address address' value value' :
  address <> address' ->
  setValues (setValues block address value) address' value'
  = setValues (setValues block address' value') address value.
Proof.
  intros Hne. unfold setValues.
  destruct (in_block block address) eqn:Hin, (in_block block address') eqn:Hin';
    rewrite ?in_block_insert, ?Hin, ?Hin'; try done.
  apply in_block_spec in Hin, Hin'. apply list_insert_insert_ne. lia.
Qed.

(** What a read returns depends on the mapping of the tag and on the block
    of its table only. *)
Lemma get_tag_value_result self tag_name mapping :
  tag_mappings self !! tag_name = Some mapping ->
  fst (get_tag_value self tag_name)
  = if (m_table mapping =? "DI")%string then getValues0 (di (context self)) (m_address mapping)
    else if (m_table mapping =? "COIL")%string then getValues0 (co (context self)) (m_address mapping)
    else if (m_table mapping =? "HR")%string then getValues0 (hr (context self)) (m_address mapping)
    else if (m_table mapping =? "IR")%string then getValues0 (ir (context self)) (m_address mapping)
    else Raise (ValueError (UnknownTable (m_table mapping))).
Proof.
  intros Hreg. unfold get_tag_value. rewrite Hreg.
  destruct (String.eqb_spec (m_table mapping) "DI") as [->|Hdi]; [done|].
  destruct (String.eqb_spec (m_table mapping) "COIL") as [->|Hco]; [done|].
  destruct (String.eqb_spec (m_table mapping) "HR") as [->|Hhr]; [done|].
  destruct (String.eqb_spec (m_table mapping) "IR") as [->|Hir]; [done|].
  rewrite bool_decide_eq_false_2; [done|].
  rewrite !elem_of_cons, elem_of_nil. tauto.
Qed.

Lemma get_tag_value_self self tag_name :
  snd (get_tag_value self tag_name) = self.
Proof.
  unfold get_tag_value. destruct (tag_mappings self !! tag_name); [|done].
  repeat case_match; done.
Qed.

End StoreAlgebra.

(** X1. A write changes at most the one cell it addresses: the tag catalog,
    the discrete inputs and the input registers are as before, and every
    other registered tag that sits at a different table or address reads
    as it did before the write. *)
Theorem write_leaves_other_cells
  (self : ModbusBridge) (tag_name other : string) (value : Value)
  (mapping mapping' : Mapping) :
  tag_mappings self !! tag_name = Some mapping ->
  tag_mappings self !! other = Some mapping' ->
  cell_of mapping <> cell_of mapping' ->
  let after := snd (set_tag_value self tag_name value) in
  tag_mappings after = tag_mappings self
  /\ di (context after) = di (context self)
  /\ ir (context after) = ir (context self)
  /\ fst (get_tag_value after other) = fst (get_tag_value self other).
Proof.
  intros Hreg Hreg' Hcell after.
  assert (tag_mappings after = tag_mappings self) as Hmap
    by apply set_tag_value_mappings.
  split; [exact Hmap|].
  rewrite (get_tag_value_result after other mapping') by (by rewrite Hmap).
  rewrite (get_tag_value_result self other mapping') by done.
  subst after. unfold set_tag_value. rewrite Hreg.
  destruct (String.eqb_spec (m_table mapping) "COIL") as [Hco|Hnco].
  - cbn [snd with_context context di co hr ir]. repeat split.
    destruct (String.eqb_spec (m_table mapping') "DI"); [done|].
    destruct (String.eqb_spec (m_table mapping') "COIL") as [Hco'|]; [|done].
    apply getValues0_setValues_ne. intros Haddr. apply Hcell.
    unfold cell_of. by rewrite Hco, Hco', Haddr.
  - destruct (String.eqb_spec (m_table mapping) "HR") as [Hhr|Hnhr]; [|done].
    cbn [snd with_context context di co hr ir]. repeat split.
    destruct (String.eqb_spec (m_table mapping') "DI"); [done|].
    destruct (String.eqb_spec (m_table mapping') "COIL"); [done|].
    destruct (String.eqb_spec (m_table mapping') "HR") as [Hhr'|]; [|done].
    apply getValues0_setValues_ne. intros Haddr. apply Hcell.
    unfold cell_of. by rewrite Hhr, Hhr', Haddr.
Qed.

Lemma write_leaves_other_cells_witness :
  let after := snd (set_tag_value Examples.bottle_bridge "ACT_MOTOR" (VBool true)) in
  tag_mappings after = tag_mappings Examples.bottle_bridge
  /\ di (context after) = di (context Examples.bottle_bridge)
  /\ ir (context after) = ir (context Examples.bottle_bridge)
  /\ fst (get_tag_value after "ACT_NOZZLE")
     = fst (get_tag_value Examples.bottle_bridge "ACT_NOZZLE").
Proof.
  apply (write_leaves_other_cells Examples.bottle_bridge "ACT_MOTOR" "ACT_NOZZLE"
           (VBool true) (Examples.mapping "BOOL" "COIL" 0 "Actuator")
           (Examples.mapping "BOOL" "COIL" 1 "Actuator"));
    [reflexivity | reflexivity | discriminate].
Defined.

(** X2. Two tags that the map places at the same cell of the coils or the
    holding registers are aliases: a value written through one is what a
    read through the other returns (the address being inside the block). *)
Theorem tags_at_one_cell_alias
  (self : ModbusBridge) (tag1 tag2 : string) (mapping1 mapping2 : Mapping)
  (value : Value) :
  tag_mappings self !! tag1 = Some mapping1 ->
  tag_mappings self !! tag2 = Some mapping2 ->
  cell_of mapping1 = cell_of mapping2 ->
  m_table mapping1 = "COIL" \/ m_table mapping1 = "HR" ->
  sized (context self) ->
  (0 <= m_address mapping1 < 100)%Z ->
  let after := snd (set_tag_value self tag1 value) in
  fst (set_tag_value self tag1 value) = Ok tt
  /\ fst (get_tag_value after tag2) = Ok value.
Proof.
  intros Hreg1 Hreg2 [= Htable Haddr] Hwritable (Hdi & Hco & Hhr & Hir) Hrange after.
  rewrite (get_tag_value_result after tag2 mapping2)
    by (subst after; by rewrite set_tag_value_mappings).
  subst after. unfold set_tag_value. rewrite Hreg1.
  rewrite <- Htable, <- Haddr.
  destruct Hwritable as [Hw | Hw]; rewrite Hw; simpl;
    (split; [reflexivity|]);
    apply getValues0_setValues_eq, in_block_spec; lia.
Qed.

Lemma tags_at_one_cell_alias_witness :
  let shared :=
    {| tag_mappings :=
         list_to_map [("ACT_MOTOR", Examples.mapping "BOOL" "COIL" 0 "Actuator");
                      ("ACT_NOZZLE", Examples.mapping "BOOL" "COIL" 0 "Actuator")];
       ir_data := None;
       context := _create_modbus_context |} in
  let after := snd (set_tag_value shared "ACT_MOTOR" (VBool true)) in
  fst (set_tag_value shared "ACT_MOTOR" (VBool true)) = Ok tt
  /\ fst (get_tag_value after "ACT_NOZZLE") = Ok (VBool true).
Proof.
  cbv zeta.
  apply (tags_at_one_cell_alias _ "ACT_MOTOR" "ACT_NOZZLE"
           (Examples.mapping "BOOL" "COIL" 0 "Actuator")
           (Examples.mapping "BOOL" "COIL" 0 "Actuator") (VBool true));
    [reflexivity | reflexivity | reflexivity | by left | apply sized_create
    | simpl; lia].
Defined.

(** X3. Writes compose as assignments do: a second write to the same tag
    leaves the bridge as that write alone would have left it, and writes to
    two tags at different cells can be made in either order. *)
Theorem writes_overwrite_and_commute
  (self : ModbusBridge) (tag1 tag2 : string) (value1 value2 : Value) :
  snd (set_tag_value (snd (set_tag_value self tag1 value1)) tag1 value2)
  = snd (set_tag_value self tag1 value2)
  /\ (forall mapping1 mapping2,
         tag_mappings self !! tag1 = Some mapping1 ->
         tag_mappings self !! tag2 = Some mapping2 ->
         cell_of mapping1 <> cell_of mapping2 ->
         snd (set_tag_value (snd (set_tag_value self tag1 value1)) tag2 value2)
         = snd (set_tag_value (snd (set_tag_value self tag2 value2)) tag1 value1)).
Proof.
  split.
  - unfold set_tag_value at 2.
    destruct (tag_mappings self !! tag1) as [mapping|] eqn:Hreg; [|done].
    destruct (String.eqb_spec (m_table mapping) "COIL") as [Hco|Hnco].
    + unfold set_tag_value. cbn [snd with_context tag_mappings context di co hr ir].
      rewrite Hreg. apply String.eqb_eq in Hco. rewrite Hco.
      cbn [snd with_context tag_mappings ir_data context di co hr ir].
      by rewrite setValues_setValues.
    + destruct (String.eqb_spec (m_table mapping) "HR") as [Hhr|Hnhr]; [|done].
      unfold set_tag_value. cbn [snd with_context tag_mappings context di co hr ir].
      rewrite Hreg. apply String.eqb_neq in Hnco. apply String.eqb_eq in Hhr.
      rewrite Hnco, Hhr.
      cbn [snd with_context tag_mappings ir_data context di co hr ir].
      by rewrite setValues_setValues.
  - intros mapping1 mapping2 Hreg1 Hreg2 Hcell.
    unfold set_tag_value at 2 4. rewrite Hreg1, Hreg2.
    destruct (String.eqb_spec (m_table mapping1) "COIL") as [Hco1|Hnco1];
      [|destruct (String.eqb_spec (m_table mapping1) "HR") as [Hhr1|Hnhr1]];
      (destruct (String.eqb_spec (m_table mapping2) "COIL") as [Hco2|Hnco2];
       [|destruct (String.eqb_spec (m_table mapping2) "HR") as [Hhr2|Hnhr2]]);
      unfold set_tag_value;
      cbn [snd with_context tag_mappings ir_data context di co hr ir];
      rewrite ?Hreg1, ?Hreg2;
      repeat match goal with
        | H : m_table _ = _ |- _ => apply String.eqb_eq in H; rewrite ?H
        | H : m_table _ <> _ |- _ => apply String.eqb_neq in H; rewrite ?H
        end;
      cbn [snd with_context tag_mappings ir_data context di co hr ir];
      try reflexivity.
    + f_equal. f_equal. apply setValues_commute. intros Haddr. apply Hcell.
      unfold cell_of. apply String.eqb_eq in Hco1, Hco2. by rewrite Hco1, Hco2, Haddr.
    + f_equal. f_equal. apply setValues_commute. intros Haddr. apply Hcell.
      unfold cell_of. apply String.eqb_eq in Hhr1, Hhr2. by rewrite Hhr1, Hhr2, Haddr.
Qed.

Lemma writes_overwrite_and_commute_witness :
  snd (set_tag_value (snd (set_tag_value Examples.bottle_bridge "ACT_MOTOR" (VBool true)))
         "CMD_SPEED" (VInt 7))
  = snd (set_tag_value (snd (set_tag_value Examples.bottle_bridge "CMD_SPEED" (VInt 7)))
           "ACT_MOTOR" (VBool true)).
Proof.
  apply (proj2 (writes_overwrite_and_commute Examples.bottle_bridge
                  "ACT_MOTOR" "CMD_SPEED" (VBool true) (VInt 7))
               (Examples.mapping "BOOL" "COIL" 0 "Actuator")
               (Examples.mapping "INT" "HR" 0 "Command"));
    [reflexivity | reflexivity | discriminate].
Defined.

Section SensorReadBack.

Implicit Types (self : ModbusBridge) (block : list Value) (address : Z).

Lemma getValues0_lookup block address value :
  in_block block address = true ->
  block !! Z.to_nat address = Some value ->
  getValues0 block address = Ok value.
Proof. intros Hin Hcell. unfold getValues0. by rewrite Hin, Hcell. Qed.

Lemma setValues_lookup_eq block address value :
  in_block block address = true ->
  setValues block address value !! Z.to_nat address = Some value.
Proof.
  intros Hin. unfold setValues. rewrite Hin.
  apply in_block_spec in Hin. apply list_lookup_insert_eq. lia.
Qed.

Lemma fold_update_sensor_sized (items : list (string * Value)) self :
  sized (context self) -> sized (context (fold_left update_sensor items self)).
Proof.
  revert self. induction items as [|item rest IH]; intros self Hsized; [done|].
  simpl. by apply IH, update_sensor_sized.
Qed.

(** Items that do not write a cell leave it as it is. *)
Lemma fold_update_sensor_keeps_di (items : list (string * Value)) self (i : nat) :
  (forall item, item ∈ items -> ~ writes_cell self "DI" (Z.of_nat i) item) ->
  di (context (fold_left update_sensor items self)) !! i = di (context self) !! i.
Proof.
  intros Hnone.
  destruct (fold_update_sensor_frame items self) as (_ & _ & _ & Hdi & _).
  destruct (decide (di (context (fold_left update_sensor items self)) !! i
                    = di (context self) !! i)) as [Heq|Hne]; [done|].
  destruct (Hdi i Hne) as (item & Hin & Hwrites). by destruct (Hnone item Hin).
Qed.

Lemma fold_update_sensor_keeps_ir (items : list (string * Value)) self (i : nat) :
  (forall item, item ∈ items -> ~ writes_cell self "IR" (Z.of_nat i) item) ->
  ir (context (fold_left update_sensor items self)) !! i = ir (context self) !! i.
Proof.
  intros Hnone.
  destruct (fold_update_sensor_frame items self) as (_ & _ & _ & _ & Hir).
  destruct (decide (ir (context (fold_left update_sensor items self)) !! i
                    = ir (context self) !! i)) as [Heq|Hne]; [done|].
  destruct (Hir i Hne) as (item & Hin & Hwrites). by destruct (Hnone item Hin).
Qed.

End SensorReadBack.

(** X4. In a call of [update_sensors] with many items, the last item that
    addresses a cell decides what the cell holds: if an item names a
    registered tag of the discrete inputs or input registers, inside the
    block, and no later item writes the same cell, then the tag reads the
    value of that item after the call. *)
Theorem update_sensors_last_item_wins
  (self : ModbusBridge) (before after : list (string * Value))
  (tag_name : string) (mapping : Mapping) (value : Value) :
  tag_mappings self !! tag_name = Some mapping ->
  m_table mapping = "DI" \/ m_table mapping = "IR" ->
  sized (context self) ->
  (0 <= m_address mapping < 100)%Z ->
  (forall item, item ∈ after ->
                ~ writes_cell self (m_table mapping) (m_address mapping) item) ->
  let final := snd (update_sensors self (before ++ (tag_name, value) :: after)) in
  fst (get_tag_value final tag_name) = Ok value.
Proof.
  intros Hreg Htable Hsized Hrange Hlater final.
  subst final. unfold update_sensors. cbn [snd].
  rewrite fold_left_app. cbn [fold_left].
  set (s0 := fold_left update_sensor before self).
  set (s1 := update_sensor s0 (tag_name, value)).
  assert (tag_mappings s0 = tag_mappings self) as Hmap0
    by apply (fold_update_sensor_frame before self).
  assert (sized (context s0)) as (Hdi0 & Hco0 & Hhr0 & Hir0)
    by by apply fold_update_sensor_sized.
  assert (tag_mappings s1 = tag_mappings self) as Hmap1
    by (subst s1; by rewrite update_sensor_mappings).
  assert (sized (context s1)) as Hsized1
    by (subst s1; by apply update_sensor_sized).
  pose proof (fold_update_sensor_sized after s1 Hsized1) as (Hdi2 & Hco2 & Hhr2 & Hir2).
  assert (tag_mappings (fold_left update_sensor after s1) = tag_mappings self)
    as Hmap2.
  { destruct (fold_update_sensor_frame after s1) as (-> & _). done. }
  rewrite (get_tag_value_result _ tag_name mapping) by (by rewrite Hmap2).
  assert (Z.of_nat (Z.to_nat (m_address mapping)) = m_address mapping) as Hnat by lia.
  destruct Htable as [Htable | Htable]; rewrite Htable in *; simpl.
  - apply getValues0_lookup; [apply in_block_spec; lia|].
    rewrite fold_update_sensor_keeps_di.
    + subst s1. unfold update_sensor. rewrite Hmap0, Hreg, Htable. simpl.
      apply setValues_lookup_eq, in_block_spec. lia.
    + intros item Hin Hwrites. apply (Hlater item Hin).
      rewrite Hnat in Hwrites.
      exact (writes_cell_mappings self s1 _ _ item Hmap1 Hwrites).
  - apply getValues0_lookup; [apply in_block_spec; lia|].
    rewrite fold_update_sensor_keeps_ir.
    + subst s1. unfold update_sensor. rewrite Hmap0, Hreg, Htable. simpl.
      apply setValues_lookup_eq, in_block_spec. lia.
    + intros item Hin Hwrites. apply (Hlater item Hin).
      rewrite Hnat in Hwrites.
      exact (writes_cell_mappings self s1 _ _ item Hmap1 Hwrites).
Qed.

Lemma update_sensors_last_item_wins_witness :
  let final :=
    snd (update_sensors Examples.bottle_bridge
           ([("SENSOR_LIMIT_SWITCH", VBool false)]
            ++ ("SENSOR_LIMIT_SWITCH", VBool true)
            :: [("SENSOR_LEVEL_SENSOR", VBool false); ("bottle_level", VInt 0)])) in
  fst (get_tag_value final "SENSOR_LIMIT_SWITCH") = Ok (VBool true).
Proof.
  apply (update_sensors_last_item_wins Examples.bottle_bridge
           [("SENSOR_LIMIT_SWITCH", VBool false)]
           [("SENSOR_LEVEL_SENSOR", VBool false); ("bottle_level", VInt 0)]
           "SENSOR_LIMIT_SWITCH" (Examples.mapping "BOOL" "DI" 0 "Sensor")
           (VBool true));
    [reflexivity | by left | apply sized_create | simpl; lia |].
  intros item Hin (mapping & Hreg & Htable & Haddr).
  apply elem_of_cons in Hin as [-> | Hin].
  { vm_compute in Hreg. injection Hreg as <-. discriminate Haddr. }
  apply elem_of_cons in Hin as [-> | Hin].
  { vm_compute in Hreg. discriminate Hreg. }
  inversion Hin.
Defined.

Section ActuatorValues.

Implicit Types (self : ModbusBridge) (names : list string).

Lemma read_all_ok self names values :
  read_all self names = Ok values ->
  forall name value,
    (name, value) ∈ values
    <-> name ∈ names /\ fst (get_tag_value self name) = Ok value.
Proof.
  revert values. induction names as [|first rest IH]; intros values; simpl.
  { intros [= <-] name value. rewrite !elem_of_nil. tauto. }
  destruct (fst (get_tag_value self first)) as [first_value|e] eqn:Hfirst; [|done].
  simpl. destruct (read_all self rest) as [rest_values|e] eqn:Hrest; [|done].
  simpl. intros [= <-] name value. rewrite !elem_of_cons, (IH rest_values eq_refl).
  split.
  - intros [[= -> ->] | [Hin Hread]]; [by split; [left|] | by split; [right|]].
  - intros [[-> | Hin] Hread]; [left | right; done].
    rewrite Hfirst in Hread. by injection Hread as ->.
Qed.

Lemma read_all_raise self names name e :
  name ∈ names -> fst (get_tag_value self name) = Raise e ->
  exists e', read_all self names = Raise e'.
Proof.
  induction names as [|first rest IH]; [by intros ?%elem_of_nil|].
  intros [-> | Hin]%elem_of_cons Hread; simpl.
  - rewrite Hread. simpl. eauto.
  - destruct (fst (get_tag_value self first)); simpl; [|eauto].
    destruct (IH Hin Hread) as [e' ->]. simpl. eauto.
Qed.

Lemma actuator_names self name :
  name ∈ map fst (filter (fun item => m_role (snd item) = "Actuator")
                         (map_to_list (tag_mappings self)))
  <-> exists mapping, tag_mappings self !! name = Some mapping
                      /\ m_role mapping = "Actuator".
Proof.
  rewrite list_elem_of_In, in_map_iff. split.
  - intros ([name' mapping] & <- & Hin). apply list_elem_of_In in Hin.
    apply list_elem_of_filter in Hin as [Hrole Hin].
    apply elem_of_map_to_list in Hin. eauto.
  - intros (mapping & Hreg & Hrole). exists (name, mapping). split; [done|].
    apply list_elem_of_In, list_elem_of_filter. split; [done|].
    by apply elem_of_map_to_list.
Qed.

End ActuatorValues.

(** X5. [get_actuator_values] leaves the bridge as it is.  When it returns,
    its result holds exactly the registered tags whose role is [Actuator],
    each with the value a read of the tag returns; and when the read of one
    such tag raises, [get_actuator_values] raises as well and returns
    nothing. *)
Theorem actuator_values_are_the_actuator_reads (self : ModbusBridge) :
  snd (get_actuator_values self) = self
  /\ (forall values,
         fst (get_actuator_values self) = Ok values ->
         forall name value,
           (name, value) ∈ values
           <-> (exists mapping, tag_mappings self !! name = Some mapping
                                /\ m_role mapping = "Actuator")
               /\ fst (get_tag_value self name) = Ok value)
  /\ (forall name mapping e,
         tag_mappings self !! name = Some mapping ->
         m_role mapping = "Actuator" ->
         fst (get_tag_value self name) = Raise e ->
         exists e', fst (get_actuator_values self) = Raise e').
Proof.
  split; [reflexivity|]. split.
  - intros values Hvalues name value. unfold get_actuator_values in Hvalues.
    cbn [fst] in Hvalues. rewrite (read_all_ok self _ values Hvalues).
    by rewrite actuator_names.
  - intros name mapping e Hreg Hrole Hread. unfold get_actuator_values. cbn [fst].
    eapply read_all_raise; [|exact Hread]. apply actuator_names. eauto.
Qed.

Lemma actuator_values_are_the_actuator_reads_witness :
  exists e', fst (get_actuator_values Examples.far_bridge) = Raise e'.
Proof.
  apply (proj2 (proj2 (actuator_values_are_the_actuator_reads Examples.far_bridge))
               "ACT_FAR" (Examples.mapping "BOOL" "COIL" 150 "Actuator")
               SubscriptError);
    reflexivity.
Defined.

(** X6. The loader takes the table of a tag as the text of the map file,
    and the accessors know four spellings only: a registered tag whose
    table is none of [DI], [COIL], [HR], [IR] can be neither read nor
    written, and [update_sensors] passes over it. *)
Theorem unknown_table_is_unusable
  (self : ModbusBridge) (tag_name : string) (mapping : Mapping) (value : Value) :
  tag_mappings self !! tag_name = Some mapping ->
  m_table mapping ∉ ["DI"; "COIL"; "HR"; "IR"]%string ->
  get_tag_value self tag_name
  = (Raise (ValueError (UnknownTable (m_table mapping))), self)
  /\ set_tag_value self tag_name value
     = (Raise (ValueError (CannotWriteTable (m_table mapping))), self)
  /\ update_sensors self [(tag_name, value)] = (Ok tt, self).
Proof.
  intros Hreg Hunknown.
  assert (m_table mapping <> "DI" /\ m_table mapping <> "COIL"
          /\ m_table mapping <> "HR" /\ m_table mapping <> "IR")
    as (Hdi & Hco & Hhr & Hir).
  { rewrite !elem_of_cons, elem_of_nil in Hunknown. tauto. }
  split; [|split].
  - unfold get_tag_value. rewrite Hreg. by rewrite bool_decide_eq_false_2.
  - by apply set_tag_value_not_writable.
  - unfold update_sensors, update_sensor. simpl. rewrite Hreg.
    apply String.eqb_neq in Hdi, Hir. by rewrite Hdi, Hir.
Qed.

Lemma unknown_table_is_unusable_witness :
  let lower :=
    {| tag_mappings :=
         list_to_map [("ACT_MOTOR", Examples.mapping "BOOL" "coil" 0 "Actuator")];
       ir_data := None;
       context := _create_modbus_context |} in
  constructed
    (snd (__init__ decimal
            (Examples.files "bottle"
               [Examples.row "ACT_MOTOR" "BOOL" "coil" "0" "Actuator"]) "bottle"))
  = Some lower
  /\ get_tag_value lower "ACT_MOTOR"
     = (Raise (ValueError (UnknownTable "coil")), lower)
  /\ set_tag_value lower "ACT_MOTOR" (VBool true)
     = (Raise (ValueError (CannotWriteTable "coil")), lower)
  /\ update_sensors lower [("ACT_MOTOR", VBool true)] = (Ok tt, lower).
Proof.
  cbv zeta. split; [vm_compute; reflexivity|].
  apply (unknown_table_is_unusable _ "ACT_MOTOR"
           (Examples.mapping "BOOL" "coil" 0 "Actuator") (VBool true)).
  - reflexivity.
  - rewrite !elem_of_cons, elem_of_nil. simpl.
    intros [H | [H | [H | [H | []]]]]; discriminate H.
Defined.

Section Construction.

Variable py_int : string -> option Z.

Lemma init_ok_attrs (fs : Files) (plant_type : string) :
  fst (__init__ py_int fs plant_type) = Ok tt ->
  exists mappings,
    _load_modbus_map py_int fs plant_type = Ok mappings
    /\ snd (__init__ py_int fs plant_type)
       = {| a_tag_mappings := Some mappings;
            a_ir_data := Some (_load_ir_data fs plant_type);
            a_context := Some _create_modbus_context |}.
Proof.
  unfold __init__. destruct (_load_modbus_map _ _ _) as [mappings|]; [|done].
  destruct (_validate_mappings _ _); [|done]. eauto.
Qed.

Lemma constructed_context (fs : Files) (plant_type : string) (bridge : ModbusBridge) :
  constructed (snd (__init__ py_int fs plant_type)) = Some bridge ->
  context bridge = _create_modbus_context.
Proof.
  unfold __init__. destruct (_load_modbus_map _ _ _); [|done].
  destruct (_validate_mappings _ _); [|done]. by intros [= <-].
Qed.

Lemma validate_mappings_ok (mappings : gmap string Mapping)
  (ir_data : option (list (string * ir_entry))) :
  is_ok (_validate_mappings mappings ir_data) = true
  <-> ir_data = None \/ ir_data = Some []
      \/ forall name mapping,
           mappings !! name = Some mapping -> _validate_tag_role name mapping = true.
Proof.
  unfold _validate_mappings. destruct ir_data as [[|entry doc]|]; [tauto | | tauto].
  destruct (forallb _ (map_to_list mappings)) eqn:Hall; simpl.
  - split; [|done]. intros _. right. right. intros name mapping Hreg.
    rewrite forallb_forall in Hall.
    apply (Hall (name, mapping)), list_elem_of_In, elem_of_map_to_list. done.
  - split; [done|]. intros [? | [? | Hroles]]; [done | done |].
    assert (forallb (fun item => _validate_tag_role item.1 item.2)
                    (map_to_list mappings) = true) as Htrue; [|congruence].
    apply forallb_forall. intros [name mapping] Hin%list_elem_of_In.
    apply elem_of_map_to_list in Hin. by apply Hroles.
Qed.

End Construction.


(** X8. In the bridge that [__init__] constructs every cell holds [0]: a
    registered tag of any of the four tables whose address is inside the
    block reads [0]. *)
Theorem fresh_bridge_reads_zero
  (py_int : string -> option Z) (fs : Files) (plant_type : string)
  (bridge : ModbusBridge) (tag_name : string) (mapping : Mapping) :
  constructed (snd (__init__ py_int fs plant_type)) = Some bridge ->
  tag_mappings bridge !! tag_name = Some mapping ->
  m_table mapping ∈ ["DI"; "COIL"; "HR"; "IR"]%string ->
  (0 <= m_address mapping < 100)%Z ->
  get_tag_value bridge tag_name = (Ok (VInt 0), bridge).
Proof.
  intros Hbridge Hreg Htable Hrange.
  rewrite (surjective_pairing (get_tag_value bridge tag_name)).
  rewrite get_tag_value_self, (get_tag_value_result bridge tag_name mapping Hreg).
  rewrite (constructed_context py_int fs plant_type bridge Hbridge).
  assert (getValues0 (replicate 100 (VInt 0)) (m_address mapping) = Ok (VInt 0))
    as Hzero.
  { apply getValues0_lookup.
    - apply in_block_spec. rewrite length_replicate. lia.
    - apply lookup_replicate_2. lia. }
  f_equal. rewrite !elem_of_cons, elem_of_nil in Htable.
  destruct Htable as [-> | [-> | [-> | [-> | []]]]]; exact Hzero.
Qed.

Lemma fresh_bridge_reads_zero_witness :
  get_tag_value Examples.bottle_bridge "CMD_SPEED" = (Ok (VInt 0), Examples.bottle_bridge).
Proof.
  apply (fresh_bridge_reads_zero decimal
           (Examples.files "bottle" Examples.bottle_rows) "bottle"
           Examples.bottle_bridge "CMD_SPEED"
           (Examples.mapping "INT" "HR" 0 "Command")).
  - vm_compute. reflexivity.
  - reflexivity.
  - rewrite !elem_of_cons. right. right. left. reflexivity.
  - simpl. lia.
Defined.

(* ===================================================================== *)
(** * Further properties of loading                                      *)
(* ===================================================================== *)

Section LoaderRows.

Variable py_int : string -> option Z.

Implicit Types (row : Row) (rows : list Row) (mappings : gmap string Mapping).

Local Abbreviation load_row := (Bridge.load_row py_int).
Local Abbreviation load_rows := (Bridge.load_rows py_int).

Lemma load_row_inv mappings row mappings' :
  load_row mappings row = Ok mappings' ->
  exists name mapping,
    row !! "name" = Some name
    /\ mappings' = <[name := mapping]> mappings
    /\ describes py_int row mapping
    /\ loadable py_int row.
Proof.
  unfold Bridge.load_row, getitem, Bridge.int, describes, loadable.
  destruct (row !! "name") as [name|] eqn:Hname; [|done].
  destruct (row !! "type") as [type|] eqn:Htype; [|done].
  destruct (row !! "table") as [table|] eqn:Htable; [|done].
  destruct (row !! "address") as [address|] eqn:Haddr; [|done]. simpl.
  destruct (py_int address) as [a|] eqn:Haddress; [|done]. simpl.
  destruct (row !! "width") as [width|] eqn:Hwidth; [|done]. simpl.
  assert (Forall (fun column => is_Some (row !! column))
            ["name"; "type"; "table"; "address"; "width"; "units"; "desc"; "role"]%string
          <-> is_Some (row !! "units") /\ is_Some (row !! "desc")
              /\ is_Some (row !! "role")) as Hcolumns.
  { rewrite !Forall_cons, Forall_nil, Hname, Htype, Htable, Haddr, Hwidth.
    split; [tauto|]. intros (? & ? & ?). repeat split; eauto. }
  destruct (String.eqb_spec width EmptyString) as [->|Hblank]; simpl.
  - destruct (row !! "units") as [units|]; [|done].
    destruct (row !! "desc") as [desc|]; [|done].
    destruct (row !! "role") as [role|]; [|done]. simpl.
    intros [= <-]. eexists name, _. split; [done|]. split; [done|]. simpl.
    repeat split; eauto. apply Hcolumns. eauto.
  - destruct (py_int width) as [w|] eqn:Hw; [|done]. simpl.
    destruct (row !! "units") as [units|]; [|done].
    destruct (row !! "desc") as [desc|]; [|done].
    destruct (row !! "role") as [role|]; [|done]. simpl.
    intros [= <-]. eexists name, _. split; [done|]. split; [done|]. simpl.
    repeat split; eauto.
    + right. split; [congruence | done].
    + apply Hcolumns. eauto.
Qed.

Lemma load_row_loadable mappings row :
  loadable py_int row -> is_ok (load_row mappings row) = true.
Proof.
  intros (Hcolumns & Haddress & Hwidth).
  repeat match goal with
    | H : Forall _ (_ :: _) |- _ =>
        apply Forall_cons in H as [[? ?] H]
    end.
  unfold Bridge.load_row, getitem, Bridge.int.
  repeat match goal with H : ?l = Some _ |- _ => rewrite H in *; clear H end.
  simpl in *. destruct Haddress as [a ->]. simpl.
  destruct Hwidth as [[= ->] | [w Hw]]; simpl; [done|].
  case_match; simpl; [done|]. by rewrite Hw.
Qed.

Lemma load_rows_app mappings rows1 rows2 :
  load_rows mappings (rows1 ++ rows2)
  = mappings1 ← load_rows mappings rows1; load_rows mappings1 rows2.
Proof.
  revert mappings. induction rows1 as [|row rest IH]; intros mappings; [done|].
  simpl. destruct (load_row mappings row); simpl; [apply IH | done].
Qed.

(** Rows with other names leave the entry of a name alone. *)
Lemma load_rows_keeps mappings rows mappings' name :
  load_rows mappings rows = Ok mappings' ->
  (forall row, row ∈ rows -> row !! "name" <> Some name) ->
  mappings' !! name = mappings !! name.
Proof.
  revert mappings. induction rows as [|row rest IH]; intros mappings; simpl.
  { by intros [= <-]. }
  destruct (load_row mappings row) as [mappings1|] eqn:Hrow; [|done]. simpl.
  intros Hrest Hnames.
  rewrite (IH mappings1 Hrest) by (intros r Hin; apply Hnames; by right).
  apply load_row_inv in Hrow as (name' & mapping & Hname & -> & _).
  apply lookup_insert_ne. intros ->. by apply (Hnames row); [left|].
Qed.

(** The names registered are those already there and the names of the
    rows. *)
Lemma load_rows_names mappings rows mappings' name :
  load_rows mappings rows = Ok mappings' ->
  is_Some (mappings' !! name)
  <-> is_Some (mappings !! name) \/ exists row, row ∈ rows /\ row !! "name" = Some name.
Proof.
  revert mappings. induction rows as [|row rest IH]; intros mappings; simpl.
  { intros [= <-]. split; [by left|]. intros [? | (? & []%elem_of_nil & _)]; done. }
  destruct (load_row mappings row) as [mappings1|] eqn:Hrow; [|done]. simpl.
  intros Hrest. rewrite (IH mappings1 Hrest).
  apply load_row_inv in Hrow as (name' & mapping & Hname & -> & _).
  rewrite lookup_insert_is_Some. split.
  - intros [[-> | [_ Hold]] | (r & Hin & Hr)].
    + right. exists row. split; [by left | done].
    + by left.
    + right. exists r. split; [by right | done].
  - intros [Hold | (r & [-> | Hin]%elem_of_cons & Hr)].
    + left. destruct (decide (name' = name)); [by left | by right].
    + left. left. congruence.
    + right. eauto.
Qed.

Lemma load_rows_ok_iff mappings rows :
  is_ok (load_rows mappings rows) = true <-> Forall (loadable py_int) rows.
Proof.
  revert mappings. induction rows as [|row rest IH]; intros mappings; simpl.
  { split; [constructor | done]. }
  destruct (load_row mappings row) as [mappings1|e] eqn:Hrow; simpl.
  - rewrite IH, Forall_cons. apply load_row_inv in Hrow as (? & ? & _ & _ & _ & Hrow).
    tauto.
  - split; [done|]. intros [Hrow' _]%Forall_cons.
    apply (load_row_loadable mappings) in Hrow'. by rewrite Hrow in Hrow'.
Qed.

End LoaderRows.

(** X9. [_load_modbus_map] succeeds exactly when the map file exists and
    every row has the eight columns, an integer address and a width that is
    blank or an integer; the tags it then registers are exactly the names
    of the rows. *)
Theorem load_succeeds_iff_rows_loadable
  (py_int : string -> option Z) (fs : Files) (plant_type : string) :
  (is_ok (_load_modbus_map py_int fs plant_type) = true
   <-> exists rows, csv_files fs !! map_file plant_type = Some rows
                    /\ Forall (loadable py_int) rows)
  /\ (forall rows mappings name,
         csv_files fs !! map_file plant_type = Some rows ->
         _load_modbus_map py_int fs plant_type = Ok mappings ->
         is_Some (mappings !! name)
         <-> exists row, row ∈ rows /\ row !! "name" = Some name).
Proof.
  unfold _load_modbus_map. split.
  - destruct (csv_files fs !! map_file plant_type) as [rows|].
    + rewrite load_rows_ok_iff. split; [eauto|]. by intros (? & [= <-] & ?).
    + simpl. split; [done | by intros (? & ? & _)].
  - intros rows mappings name ->. intros Hload.
    rewrite (load_rows_names py_int ∅ rows mappings name Hload).
    rewrite lookup_empty. split; [|eauto]. by intros [[? ?] | ?].
Qed.

(** X10. The loader keeps one entry per tag name, that of the last row
    with the name: when the load succeeds, the name of a row that no later
    row repeats is registered with the fields of that row, the address as
    the integer its text denotes and the width 1 when its cell is blank. *)
Theorem last_row_of_a_name_is_registered
  (py_int : string -> option Z) (fs : Files) (plant_type : string)
  (mappings : gmap string Mapping) (before after : list Row) (row : Row)
  (name : string) :
  csv_files fs !! map_file plant_type = Some (before ++ row :: after) ->
  _load_modbus_map py_int fs plant_type = Ok mappings ->
  row !! "name" = Some name ->
  (forall later, later ∈ after -> later !! "name" <> Some name) ->
  exists mapping, mappings !! name = Some mapping /\ describes py_int row mapping.
Proof.
  intros Hfile Hload Hname Hlater. unfold _load_modbus_map in Hload.
  rewrite Hfile, load_rows_app in Hload.
  destruct (Bridge.load_rows py_int ∅ before) as [mappings0|]; [|done].
  simpl in Hload.
  destruct (Bridge.load_row py_int mappings0 row) as [mappings1|] eqn:Hrow; [|done].
  simpl in Hload.
  apply load_row_inv in Hrow as (name' & mapping & Hname' & -> & Hdescribes & _).
  assert (name' = name) as -> by congruence.
  exists mapping. split; [|done].
  rewrite (load_rows_keeps py_int _ after mappings name Hload Hlater).
  apply lookup_insert_eq.
Qed.

Lemma last_row_of_a_name_is_registered_witness :
  exists mapping,
    tag_mappings Examples.bottle_bridge !! "CMD_RUN" = Some mapping
    /\ describes decimal (Examples.row "CMD_RUN" "BOOL" "COIL" "2" "Command") mapping.
Proof.
  apply (last_row_of_a_name_is_registered decimal
           (Examples.files "bottle" Examples.bottle_rows) "bottle"
           (tag_mappings Examples.bottle_bridge)
           [Examples.row "SENSOR_LIMIT_SWITCH" "BOOL" "DI" "0" "Sensor";
            Examples.row "SENSOR_LEVEL_SENSOR" "BOOL" "DI" "1" "Sensor";
            Examples.row "ACT_MOTOR" "BOOL" "COIL" "0" "Actuator";
            Examples.row "ACT_NOZZLE" "BOOL" "COIL" "1" "Actuator"]
           [Examples.row "CMD_SPEED" "INT" "HR" "0" "Command";
            Examples.row "SENSOR_FLOW" "INT" "IR" "0" "Sensor"]
           (Examples.row "CMD_RUN" "BOOL" "COIL" "2" "Command") "CMD_RUN").
  - vm_compute. reflexivity.
  - vm_compute. reflexivity.
  - vm_compute. reflexivity.
  - intros later Hin. apply elem_of_cons in Hin as [-> | Hin];
      [vm_compute; discriminate|].
    apply elem_of_cons in Hin as [-> | Hin]; [vm_compute; discriminate|].
    inversion Hin.
Defined.

(* ===================================================================== *)
(** * Further properties of the physics engines                          *)
(* ===================================================================== *)

Section RefineryPhases.

Import Refinery.
Context {R : Type} {N : Num R}.

Implicit Types (self : OilRefineryPhysics R) (dt : R)
  (inputs : gmap string Value) (t : @tank R).

(** The phase step moves the phase from 1 to 2 and from 3 to 0, and
    nowhere else. *)
Lemma process_phase self dt outlet sep waste t :
  phase (process self dt outlet sep waste t) = phase t
  \/ (phase t = 1%Z /\ phase (process self dt outlet sep waste t) = 2%Z)
  \/ (phase t = 3%Z /\ phase (process self dt outlet sep waste t) = 0%Z).
Proof.
  unfold process.
  destruct (Z.eqb_spec (phase t) 1) as [H1|_].
  { case_match; [right; left | left]; done. }
  destruct (Z.eqb_spec (phase t) 2) as [H2|_].
  { case_match; by left. }
  destruct (Z.eqb_spec (phase t) 3) as [H3|_]; [|by left].
  case_match; [|by left]. cbn [phase]. case_match; [right; right | left]; done.
Qed.

Lemma update_phase self dt inputs :
  let phase' := processing_phase (snd (update self dt inputs)) in
  phase' = processing_phase self
  \/ (processing_phase self = 1%Z /\ phase' = 2%Z)
  \/ (processing_phase self = 3%Z /\ phase' = 0%Z).
Proof.
  unfold update. cbn [snd processing_phase].
  set (t0 := Build_tank _ _ _ _).
  set (t1 := feed _ _ _ t0).
  set (t2 := process _ _ _ _ _ t1).
  assert (phase t1 = processing_phase self) as H1
    by apply (feed_phase self dt _ t0).
  destruct (spill_phase self t2) as [-> _].
  pose proof (process_phase self dt (get inputs "ACT_OUTLET_VALVE")
                (get inputs "ACT_SEP_VALVE") (get inputs "ACT_WASTE_VALVE") t1)
    as Hstep.
  fold t2 in Hstep. by rewrite H1 in Hstep.
Qed.

End RefineryPhases.

(** X11. The phases of the refinery engine, for every number
    representation and every run of ticks: an engine in phase 2
    (Processing) stays in phase 2, and an engine is in phase 1 (Filling) or
    in phase 3 (Emptying) after a run only if it was in that phase before
    the run.  No tick enters Filling or Emptying, and none leaves
    Processing. *)
Theorem refinery_phases_are_never_entered
  {R : Type} {N : Num R} (self : Refinery.OilRefineryPhysics R)
  (ticks : list (R * gmap string Value)) :
  (Refinery.processing_phase self = 2%Z ->
   Refinery.processing_phase (Refinery.run self ticks) = 2%Z)
  /\ (Refinery.processing_phase (Refinery.run self ticks) = 1%Z ->
      Refinery.processing_phase self = 1%Z)
  /\ (Refinery.processing_phase (Refinery.run self ticks) = 3%Z ->
      Refinery.processing_phase self = 3%Z).
Proof.
  revert self. induction ticks as [|[dt inputs] rest IH]; intros self; [done|].
  change (Refinery.run self ((dt, inputs) :: rest))
    with (Refinery.run (snd (Refinery.update self dt inputs)) rest).
  destruct (IH (snd (Refinery.update self dt inputs))) as (IH2 & IH1 & IH3).
  pose proof (update_phase self dt inputs) as Hstep. cbv zeta in Hstep.
  repeat split.
  - intros H2. apply IH2. lia.
  - intros H1%IH1. lia.
  - intros H3%IH3. lia.
Qed.

Lemma refinery_phases_are_never_entered_witness :
  Refinery.processing_phase
    (Refinery.run (Scenes.refinery_in (R:=Q) 2 (lit 85))
                  [(lit 0.02, Scenes.valves_open); (lit 0.02, Scenes.waste_open)])
  = 2%Z.
Proof.
  apply (proj1 (refinery_phases_are_never_entered
                  (Scenes.refinery_in (R:=Q) 2 (lit 85))
                  [(lit 0.02, Scenes.valves_open); (lit 0.02, Scenes.waste_open)])).
  reflexivity.
Defined.

Section RefineryBalance.

Import Refinery.
Local Open Scope Q_scope.

Implicit Types (self : OilRefineryPhysics Q) (dt : Q)
  (inputs : gmap string Value) (t : @tank Q).

Lemma spill_balance self t :
  level (spill self t) + processed (spill self t) + spilled (spill self t)
  == level t + processed t + spilled t.
Proof.
  unfold spill. case_match; cbn [level processed spilled]; [|reflexivity].
  cbn. ring.
Qed.

Lemma process_balance self dt outlet sep waste t :
  phase t <> 3%Z \/ truthy waste = false ->
  level (process self dt outlet sep waste t)
  + processed (process self dt outlet sep waste t)
  + spilled (process self dt outlet sep waste t)
  == level t + processed t + spilled t.
Proof.
  intros Hkept. unfold process.
  destruct (Z.eqb_spec (phase t) 1) as [H1|_].
  { case_match; reflexivity. }
  destruct (Z.eqb_spec (phase t) 2) as [H2|_].
  { case_match; cbn [level processed spilled]; [|reflexivity]. cbn. ring. }
  destruct (Z.eqb_spec (phase t) 3) as [H3|_]; [|reflexivity].
  destruct Hkept as [? | ->]; [done | reflexivity].
Qed.

End RefineryBalance.



Section RefinerySpill.

Import Refinery.
Local Open Scope Q_scope.

Implicit Types (self : OilRefineryPhysics Q) (dt : Q)
  (inputs : gmap string Value) (t : @tank Q).

Lemma feed_below_capacity self dt pump t :
  level t <= tank_capacity self ->
  level (feed self dt pump t) <= tank_capacity self
  /\ spilled (feed self dt pump t) = spilled t.
Proof.
  intros Hroom. unfold feed. case_match; cbn [level spilled]; [|done].
  split; [apply Q_min_le | done].
Qed.

Lemma process_below_capacity self dt outlet sep waste t :
  0 <= dt -> 0 <= tank_capacity self ->
  0 <= k_processing self -> 0 <= k_relief self ->
  level t <= tank_capacity self ->
  level (process self dt outlet sep waste t) <= tank_capacity self
  /\ spilled (process self dt outlet sep waste t) = spilled t.
Proof.
  intros Hdt Hcapacity Hprocessing Hrelief Hroom.
  pose proof (Qmult_le_0_compat _ _ Hprocessing Hdt) as Hrate.
  pose proof (Qmult_le_0_compat _ _ Hrelief Hdt) as Hempty.
  unfold process.
  repeat case_match; cbn [level spilled]; try done; split; try done.
  - unfold Physics.min. compare_rationals; lra.
  - unfold Physics.max. compare_rationals; lra.
  - unfold Physics.max. compare_rationals; lra.
Qed.

Lemma update_below_capacity self dt inputs :
  0 <= dt -> 0 <= tank_capacity self ->
  0 <= k_processing self -> 0 <= k_relief self ->
  tank_level self <= tank_capacity self ->
  let after := snd (update self dt inputs) in
  oil_spilled after = oil_spilled self
  /\ tank_level after <= tank_capacity self
  /\ tank_capacity after = tank_capacity self
  /\ k_processing after = k_processing self
  /\ k_relief after = k_relief self.
Proof.
  intros Hdt Hcapacity Hprocessing Hrelief Hroom. unfold update. cbv zeta.
  cbn [snd oil_spilled tank_level tank_capacity k_processing k_relief].
  set (t0 := Build_tank _ _ _ _).
  destruct (feed_below_capacity self dt (get inputs "ACT_FEED_PUMP") t0 Hroom)
    as [Hroom1 Hspilled1].
  set (t1 := feed _ _ _ t0) in *.
  destruct (process_below_capacity self dt (get inputs "ACT_OUTLET_VALVE")
              (get inputs "ACT_SEP_VALVE") (get inputs "ACT_WASTE_VALVE") t1
              Hdt Hcapacity Hprocessing Hrelief Hroom1) as [Hroom2 Hspilled2].
  set (t2 := process _ _ _ _ _ t1) in *.
  unfold spill. rewrite (Q_gt_false _ _ Hroom2).
  rewrite Hspilled2, Hspilled1. done.
Qed.

End RefinerySpill.



Section RefineryFeed.

Import Refinery.
Local Open Scope Q_scope.

Lemma feed_tick (self : OilRefineryPhysics Q) (dt : Q) (inputs : gmap string Value) :
  processing_phase self = 0%Z ->
  truthy (get inputs "ACT_FEED_PUMP") = true ->
  let after := snd (update self dt inputs) in
  tank_level after
  = Physics.min (tank_capacity self) (tank_level self + k_feed self * dt)
  /\ tank_capacity after = tank_capacity self
  /\ k_feed after = k_feed self
  /\ processing_phase after = 0%Z.
Proof.
  intros Hidle Hpump. unfold update. cbv zeta.
  cbn [snd tank_level tank_capacity k_feed processing_phase].
  unfold feed. rewrite Hpump.
  rewrite process_idle by done.
  unfold spill. cbn [level phase]. rewrite (Q_gt_false _ _ (Q_min_le _ _)).
  done.
Qed.

End RefineryFeed.



Section BottleTicks.

Import Bottle.
Local Open Scope Q_scope.

Implicit Types (self : BottleFillingPhysics Q) (dt : Q)
  (inputs : gmap string Value).

Lemma bottle_fill_tick self dt inputs :
  truthy (get inputs "ACT_MOTOR") = false ->
  truthy (get inputs "ACT_NOZZLE") = true ->
  bottle_in_position self = true ->
  130 <= bottle_position self <= 200 ->
  let after := snd (update self dt inputs) in
  bottle_level after = bottle_level self + k_pump self * dt
  /\ bottle_position after = bottle_position self
  /\ bottle_in_position after = true
  /\ k_pump after = k_pump self
  /\ bottle_filled after = Qle_bool 0.8 (bottle_level after).
Proof.
  intros Hmotor Hnozzle Hflag [Hlow Hhigh]. unfold update. cbv zeta.
  rewrite Hmotor, Hnozzle, Hflag. cbn [andb].
  rewrite (Q_gt_false (bottle_position self) (lit 600))
    by (cbn [lit Q_Num]; lra).
  cbn [snd bottle_level bottle_position bottle_in_position k_pump bottle_filled].
  repeat split.
  apply andb_true_iff. split; apply Qle_bool_iff; cbn [lit Q_Num]; lra.
Qed.

Lemma bottle_level_tick self dt inputs :
  0 <= dt -> 0 <= k_pump self -> 0 <= k_drain self -> 0 <= leak_rate self ->
  0 <= bottle_level self ->
  let after := snd (update self dt inputs) in
  0 <= bottle_level after
  /\ (truthy (get inputs "ACT_NOZZLE") = false ->
      bottle_level after <= bottle_level self)
  /\ k_pump after = k_pump self
  /\ k_drain after = k_drain self
  /\ leak_rate after = leak_rate self.
Proof.
  intros Hdt Hpump Hdrain Hleak Hlevel.
  pose proof (Qmult_le_0_compat _ _ Hpump Hdt) as Hfill.
  pose proof (Qmult_le_0_compat _ _ Hdrain Hdt) as Hdrained.
  pose proof (Qmult_le_0_compat _ _ Hleak Hdt) as Hleaked.
  unfold update. cbv zeta.
  destruct (truthy (get inputs "ACT_NOZZLE")); cbn [andb];
    destruct (bottle_in_position self); cbn [andb];
    unfold Physics.max; compare_rationals;
    cbn [snd bottle_level k_pump k_drain leak_rate];
    repeat split; try done; try lra.
Qed.

End BottleTicks.









(* ===================================================================== *)
(** * Further properties of the validator                                *)
(* ===================================================================== *)

Section ValidatorVerdict.

Variable py_int : string -> option Z.
Variable py_int16 : string -> option Z.
Variable policy : Policy.

Implicit Types (st : checks) (tag : Row) (tags : list Row) (i : nat).

Local Abbreviation check_tag := (ValidateMap.check_tag py_int py_int16 policy).
Local Abbreviation check_tags := (ValidateMap.check_tags py_int py_int16 policy).
Local Abbreviation passes := (row_passes py_int py_int16 policy).

Lemma appended_not_nil {A} (l : list A) (x : A) : l ++ [x] = [] -> False.
Proof. by destruct l. Qed.

Lemma address_format_ok_spec (address : string) :
  address_format_ok py_int py_int16 address = true
  <-> (if startswith address "0x" then is_Some (py_int16 address)
       else is_Some (py_int address)).
Proof.
  unfold address_format_ok. destruct (startswith address "0x");
    by rewrite bool_decide_eq_true.
Qed.

(** A row adds no error exactly when it passes and its key is free. *)
Lemma check_tag_clean_iff st i tag :
  errors_so_far (check_tag st i tag) = []
  <-> errors_so_far st = [] /\ passes tag
      /\ addresses st !! address_key tag = None.
Proof.
  split.
  - destruct (get_or_empty tag "name" =? EmptyString)%string eqn:Hname.
    { unfold_check_tag. by intros ?%appended_not_nil. }
    destruct (addresses st !! address_key tag) eqn:Hkey;
      unfold_check_tag;
      destruct (existsb _ _) eqn:Hprefix;
      destruct (first_rule (roles policy) _) as [expected_role|] eqn:Hrole;
      destruct (first_rule (type_rules policy) _) as [[|t ts]|] eqn:Htypes;
      destruct (address_format_ok _ _ _) eqn:Hformat;
      repeat case_match; intros Hclean;
      try (by apply appended_not_nil in Hclean);
      (split; [done|split; [|done]]);
      unfold row_passes; cbv zeta; rewrite Hrole, Htypes;
      (split; [by apply String.eqb_neq|]);
      (split; [apply existsb_exists in Hprefix as (prefix & Hin & Hstarts);
               exists prefix; by rewrite list_elem_of_In|]);
      (split; [intros ? ? Hne; simplify_eq;
               repeat match goal with
                      | H : negb _ && negb _ = false |- _ =>
                          apply andb_false_iff in H as [H|H];
                          apply negb_false_iff, String.eqb_eq in H
                      end; done|]);
      (split; [intros ? ? ?; simplify_eq;
               repeat match goal with
                      | H : bool_decide _ = true |- _ =>
                          apply bool_decide_eq_true in H
                      end; done|]);
      by apply address_format_ok_spec.
  - intros (Hclean & (Hname & Hprefix & Hrole & Htypes & Hformat) & Hkey).
    apply String.eqb_neq in Hname. unfold_check_tag.
    destruct Hprefix as (prefix & Hin & Hstarts).
    assert (existsb (startswith (get_or_empty tag "name"))
                    (map snd (prefixes policy)) = true) as ->.
    { apply existsb_exists. exists prefix. by rewrite <- list_elem_of_In. }
    apply address_format_ok_spec in Hformat. rewrite Hformat.
    destruct (first_rule (roles policy) _) as [expected_role|];
      destruct (first_rule (type_rules policy) _) as [[|t ts]|];
      repeat match goal with
             | |- context [negb (?r =? EmptyString)%string && _] =>
                 destruct (String.eqb_spec r EmptyString) as [?|Hne]; cbn [negb andb];
                 [|rewrite (Hrole _ eq_refl Hne), String.eqb_refl; cbn [negb]]
             | |- context [bool_decide (?x ∈ ?l)] =>
                 rewrite (bool_decide_eq_true_2 (x ∈ l)) by (by apply Htypes)
             end; done.
Qed.

Lemma row_passes_named tag : passes tag -> named tag.
Proof. by intros [Hname _]. Qed.

Lemma check_tags_clean_iff tags st i :
  errors_so_far (check_tags st i tags) = []
  <-> errors_so_far st = [] /\ Forall passes tags
      /\ NoDup (address_key <$> tags)
      /\ (forall tag, tag ∈ tags -> addresses st !! address_key tag = None).
Proof.
  revert st i. induction tags as [|tag rest IH]; intros st i.
  { cbn. split; [|by intros [? _]]. intros Hclean.
    repeat split; [done | constructor | constructor | by intros ? ?%elem_of_nil]. }
  cbn [ValidateMap.check_tags]. rewrite IH, check_tag_clean_iff. split.
  - intros ((Hclean & Hpasses & Hkey) & Hrest & Hnodup & Hfresh).
    rewrite (check_tag_addresses _ _ _ st i tag (row_passes_named _ Hpasses)), Hkey
      in Hfresh.
    split; [done|]. split; [by constructor|]. split.
    + rewrite fmap_cons. constructor; [|done].
      intros (tag' & Heq & Hin)%list_elem_of_fmap.
      specialize (Hfresh tag' Hin). by rewrite <- Heq, lookup_insert_eq in Hfresh.
    + intros tag' [->|Hin]%elem_of_cons; [done|].
      specialize (Hfresh tag' Hin). by apply lookup_insert_None in Hfresh as [? _].
  - intros (Hclean & [Hpasses Hrest]%Forall_cons & Hnodup & Hfresh).
    rewrite fmap_cons in Hnodup. apply NoDup_cons in Hnodup as [Hnew Hnodup].
    assert (addresses st !! address_key tag = None) as Hkey
      by (apply Hfresh; by left).
    split; [done|]. split; [done|]. split; [done|].
    intros tag' Hin.
    rewrite (check_tag_addresses _ _ _ st i tag (row_passes_named _ Hpasses)), Hkey.
    apply lookup_insert_None. split; [apply Hfresh; by right|].
    intros Heq. apply Hnew. apply list_elem_of_fmap. by exists tag'.
Qed.

End ValidatorVerdict.

Section ValidatorReports.

Variable py_int : string -> option Z.
Variable py_int16 : string -> option Z.
Variable policy : Policy.
Variable csv_files : gmap string (list Row).

Local Abbreviation validate :=
  (validate_modbus_map py_int py_int16 policy csv_files).

(** The verdict of a report and its list of errors say the same. *)
Lemma valid_no_errors (map_file : string) (report : Report) :
  validate map_file = Ok report ->
  valid report = true <-> errors report = [].
Proof.
  unfold validate_modbus_map. destruct (csv_files !! map_file) as [[|first rest]|]; try done.
  intros [= <-]. cbn [valid errors]. rewrite bool_decide_eq_true.
  split; [apply nil_length_inv | by intros ->].
Qed.

(** The validator raises for a missing file and for a file without rows,
    and for nothing else. *)
Lemma validate_raises (map_file : string) (e : exn) :
  validate map_file = Raise e ->
  e = FileNotFoundError map_file \/ e = IndexError.
Proof.
  unfold validate_modbus_map. destruct (csv_files !! map_file) as [[|first rest]|];
    intros [= <-]; auto.
Qed.

Lemma validate_all_ok (map_files : list string) (all_valid : bool) :
  ValidateTool.validate_all py_int py_int16 policy csv_files map_files all_valid
  = Ok true
  <-> all_valid = true
      /\ Forall (fun map_file => exists report,
                   validate map_file = Ok report /\ valid report = true)
                map_files.
Proof.
  revert all_valid. induction map_files as [|map_file rest IH]; intros all_valid.
  { cbn. split; [intros [= ->]; by split | by intros [-> _]]. }
  cbn [ValidateTool.validate_all].
  destruct (validate map_file) as [report|e] eqn:Hreport; cbn.
  - rewrite IH. pose proof (valid_no_errors map_file report Hreport) as Hvalid.
    split.
    + intros [Hall Hrest]. destruct (errors report) eqn:Herrors; [|done].
      split; [done|]. constructor; [|done]. exists report. by rewrite Hvalid.
    + intros [-> [(report' & Heq & Hok) Hrest]%Forall_cons].
      rewrite Hreport in Heq. injection Heq as <-.
      apply Hvalid in Hok. by rewrite Hok.
  - split; [done|]. intros [_ [(report & Heq & _) _]%Forall_cons].
    by rewrite Hreport in Heq.
Qed.

Lemma validate_all_raises (map_files : list string) (all_valid : bool) (e : exn) :
  ValidateTool.validate_all py_int py_int16 policy csv_files map_files all_valid
  = Raise e ->
  exists map_file, e = FileNotFoundError map_file \/ e = IndexError.
Proof.
  revert all_valid. induction map_files as [|map_file rest IH]; intros all_valid; [done|].
  cbn [ValidateTool.validate_all].
  destruct (validate map_file) as [report|e'] eqn:Hreport; cbn.
  - apply IH.
  - intros [= <-]. exists map_file. by apply validate_raises.
Qed.

End ValidatorReports.

(** X19. The verdict of the validator.  Whenever [validate_modbus_map]
    returns its report for a map file, the report says the map is valid
    exactly when the first row has the eight required columns, every row
    passes the row checks (a name with a policy prefix, the role and a type
    of its first matching policy rules, an address that reads as a decimal
    integer or, after [0x], as a hexadecimal one) and no two rows have the
    same address key [table:address].  The table rules of the policy have
    no part in the verdict: they only produce warnings. *)
Theorem report_is_valid_exactly_when
  (py_int py_int16 : string -> option Z) (policy : Policy)
  (csv_files : gmap string (list Row)) (map_file : string)
  (tags : list Row) (report : Report) :
  csv_files !! map_file = Some tags ->
  validate_modbus_map py_int py_int16 policy csv_files map_file = Ok report ->
  valid report = true
  <-> (forall first, head tags = Some first ->
         Forall (fun column => is_Some (first !! column)) required_columns)
      /\ Forall (row_passes py_int py_int16 policy) tags
      /\ NoDup (address_key <$> tags).
Proof.
  intros Hfile. unfold validate_modbus_map. rewrite Hfile.
  destruct tags as [|first rest]; [done|].
  set (start := Build_checks _ _ _).
  set (final := check_tags py_int py_int16 policy start 1 (first :: rest)).
  intros [= <-]. cbn [valid errors].
  rewrite bool_decide_eq_true.
  assert (errors_so_far start = []
          <-> Forall (fun column => is_Some (first !! column)) required_columns)
    as Hcolumns.
  { subst start. cbn [errors_so_far]. unfold required_columns.
    rewrite !Forall_cons, Forall_nil.
    rewrite !filter_cons, filter_nil.
    repeat match goal with
           | |- context [decide (first !! ?column = None)] =>
               destruct (decide (first !! column = None)) as [->|?%not_eq_None_Some]
           end;
      split; try done; intros; repeat split; try done;
      repeat match goal with
             | H : _ /\ _ |- _ => destruct H
             | H : is_Some None |- _ => by apply is_Some_None in H
             end. }
  split.
  - intros Hclean%nil_length_inv.
    apply (check_tags_clean_iff py_int py_int16 policy (first :: rest) start 1)
      in Hclean as (Hstart & Hrows & Hnodup & _).
    split; [|done]. intros ? [= <-]. by apply Hcolumns.
  - intros (Hfirst & Hrows & Hnodup).
    assert (errors_so_far final = []) as ->; [|done].
    apply (check_tags_clean_iff py_int py_int16 policy (first :: rest) start 1).
    split; [by apply Hcolumns, Hfirst|].
    split; [done|]. split; [done|]. intros tag _. apply lookup_empty.
Qed.


Lemma report_is_valid_exactly_when_witness :
  exists report,
    validate_modbus_map decimal hexadecimal Examples.policy
      {[ "maps/bottle/modbus_map.csv" := Examples.bottle_rows ]}
      "maps/bottle/modbus_map.csv" = Ok report
    /\ (valid report = true
        <-> (forall first, head Examples.bottle_rows = Some first ->
               Forall (fun column => is_Some (first !! column)) required_columns)
            /\ Forall (row_passes decimal hexadecimal Examples.policy)
                      Examples.bottle_rows
            /\ NoDup (address_key <$> Examples.bottle_rows)).
Proof.
  destruct (validate_modbus_map decimal hexadecimal Examples.policy
              {[ "maps/bottle/modbus_map.csv" := Examples.bottle_rows ]}
              "maps/bottle/modbus_map.csv") as [report|e] eqn:Hreport;
    [|vm_compute in Hreport; discriminate].
  exists report. split; [reflexivity|].
  assert ((({[ "maps/bottle/modbus_map.csv" := Examples.bottle_rows ]}
              : gmap string (list Row)) !! "maps/bottle/modbus_map.csv")
          = Some Examples.bottle_rows) as Hfile by (vm_compute; reflexivity).
  exact (report_is_valid_exactly_when decimal hexadecimal Examples.policy
           {[ "maps/bottle/modbus_map.csv" := Examples.bottle_rows ]}
           "maps/bottle/modbus_map.csv" Examples.bottle_rows report
           Hfile Hreport).
Defined.

(* ===================================================================== *)
(** * Properties of the attack injector                                  *)
(* ===================================================================== *)

Import Attacks.

Section AttackWrites.

Implicit Types (self : ModbusBridge) (tag_name : string) (value : Value)
  (block : list Value) (address : Z).

Lemma getValues0_in_block block address value :
  getValues0 block address = Ok value -> in_block block address = true.
Proof. unfold getValues0. by destruct (in_block _ _). Qed.

Lemma getValues0_setValues_same block address address' value :
  getValues0 block address = Ok value ->
  getValues0 (setValues block address' value) address = Ok value.
Proof.
  intros Hread. destruct (decide (address' = address)) as [->|Hne].
  - apply getValues0_setValues_eq. by eapply getValues0_in_block.
  - by rewrite getValues0_setValues_ne.
Qed.

(** A tag that reads [value] still does after [value] is written to any
    tag. *)
Lemma set_keeps_equal_reads self tag_name other value :
  fst (get_tag_value self other) = Ok value ->
  fst (get_tag_value (snd (set_tag_value self tag_name value)) other) = Ok value.
Proof.
  intros Hread.
  destruct (tag_mappings self !! other) as [mapping'|] eqn:Hother; cycle 1.
  { unfold get_tag_value in Hread. by rewrite Hother in Hread. }
  rewrite (get_tag_value_result self other mapping' Hother) in Hread.
  rewrite (get_tag_value_result _ other mapping')
    by (by rewrite set_tag_value_mappings).
  unfold set_tag_value. destruct (tag_mappings self !! tag_name) as [mapping|]; [|done].
  repeat case_match; simpl; try done; by apply getValues0_setValues_same.
Qed.

(** A write that succeeds is read back, if the address is inside the
    blocks. *)
Lemma set_read_back self tag_name mapping value :
  sized (context self) ->
  tag_mappings self !! tag_name = Some mapping ->
  (0 <= m_address mapping < 100)%Z ->
  fst (set_tag_value self tag_name value) = Ok tt ->
  fst (get_tag_value (snd (set_tag_value self tag_name value)) tag_name) = Ok value.
Proof.
  intros (Hdi & Hco & Hhr & Hir) Hreg Hrange.
  rewrite (get_tag_value_result _ tag_name mapping)
    by (by rewrite set_tag_value_mappings).
  unfold set_tag_value. rewrite Hreg.
  destruct (String.eqb_spec (m_table mapping) "COIL") as [Hcoil|_].
  { intros _. rewrite Hcoil. cbn. apply getValues0_setValues_eq.
    apply in_block_spec. lia. }
  destruct (String.eqb_spec (m_table mapping) "HR") as [Hhr'|_]; [|done].
  intros _. rewrite Hhr'. cbn. apply getValues0_setValues_eq.
  apply in_block_spec. lia.
Qed.

(** A pattern that writes one value to a list of tags: when it ends
    without an error, each of the tags reads that value, and so does every
    tag that read it before. *)
Lemma same_value_writes (tags : list string) value self :
  sized (context self) ->
  fst (sequence (map (fun tag => set tag value) tags) self) = Ok tt ->
  forall tag mapping,
    tag_mappings self !! tag = Some mapping ->
    (0 <= m_address mapping < 100)%Z ->
    tag ∈ tags \/ fst (get_tag_value self tag) = Ok value ->
    fst (get_tag_value (snd (sequence (map (fun tag => set tag value) tags) self))
                       tag) = Ok value.
Proof.
  revert self. induction tags as [|head rest IH]; intros self Hsized Hok tag mapping Hreg Hrange Hwritten.
  { destruct Hwritten as [?%elem_of_nil | Hread]; done. }
  cbn [map sequence foldr] in *. unfold seq at 1 in Hok. unfold seq at 1.
  unfold set at 1 in Hok. unfold set at 1.
  pose proof (set_tag_value_mappings self head value) as Hmappings.
  pose proof (set_tag_value_sized self head value Hsized) as Hsized'.
  pose proof (set_keeps_equal_reads self head tag value) as Hkept.
  pose proof (fun m H1 H2 => set_read_back self head m value Hsized H1 H2) as Hback.
  destruct (set_tag_value self head value) as [[[]|e] self1]; [|done].
  cbn [fst snd] in *.
  apply (IH self1 Hsized' Hok tag mapping); [by rewrite Hmappings | done |].
  destruct Hwritten as [[->|Hin]%elem_of_cons | Hread].
  - right. by apply (Hback mapping).
  - by left.
  - right. by apply Hkept.
Qed.

(** A write to a tag that is not registered for a coil or a holding
    register raises and changes nothing. *)
Lemma set_tag_value_refused self tag_name value :
  (forall mapping, tag_mappings self !! tag_name = Some mapping ->
                   m_table mapping <> "COIL" /\ m_table mapping <> "HR") ->
  is_ok (fst (set_tag_value self tag_name value)) = false
  /\ snd (set_tag_value self tag_name value) = self.
Proof.
  intros Hrefused. destruct (tag_mappings self !! tag_name) as [mapping|] eqn:Hreg.
  - destruct (Hrefused mapping eq_refl) as [Hcoil Hhr].
    by rewrite (set_tag_value_not_writable self tag_name mapping value Hreg Hcoil Hhr).
  - unfold set_tag_value. by rewrite Hreg.
Qed.

(** A pattern whose second write is refused ends there: it raises, and the
    bridge is as its first write left it. *)
Lemma second_write_refused (first second : string) (value value' : Value)
  (rest : list step) self :
  (forall mapping, tag_mappings self !! second = Some mapping ->
                   m_table mapping <> "COIL" /\ m_table mapping <> "HR") ->
  is_ok (fst (sequence (set first value :: set second value' :: rest) self)) = false
  /\ snd (sequence (set first value :: set second value' :: rest) self)
     = snd (set_tag_value self first value).
Proof.
  intros Hrefused.
  change (sequence (set first value :: set second value' :: rest) self)
    with (match set_tag_value self first value with
          | (Ok _, self1) =>
              match set_tag_value self1 second value' with
              | (Ok _, self2) => sequence rest self2
              | (Raise e, self2) => (Raise e, self2)
              end
          | (Raise e, self1) => (Raise e, self1)
          end).
  pose proof (set_tag_value_mappings self first value) as Hmappings.
  destruct (set_tag_value self first value) as [[[]|e] self1]; [|done].
  cbn [snd] in *.
  destruct (set_tag_value_refused self1 second value') as [Hraise Hsame].
  { by rewrite Hmappings. }
  destruct (set_tag_value self1 second value') as [[[]|e] self2]; [done|].
  cbn [snd] in Hsame. by subst self2.
Qed.

End AttackWrites.

(** X21. The StopAll attack pattern.  On a bridge with the blocks that
    [_create_modbus_context] makes, when the pattern ends without an error
    on the bottle plant or on the refinery, every tag it names (with its
    address inside the block) reads [False] afterwards, also when some of
    the tags share a cell. *)
Theorem stop_all_pattern_reads_false
  (self : ModbusBridge) (c : AttackConfig) (tag : string) (mapping : Mapping) :
  sized (context self) ->
  fst (_attack_stop_all c self) = Ok tt ->
  target_plant c = "bottle" /\ tag ∈ ["CMD_RUN"; "ACT_MOTOR"; "ACT_NOZZLE"]
  \/ target_plant c = "refinery"
     /\ tag ∈ ["ACT_FEED_PUMP"; "ACT_OUTLET_VALVE"; "ACT_SEP_VALVE";
               "ACT_WASTE_VALVE"] ->
  tag_mappings self !! tag = Some mapping ->
  (0 <= m_address mapping < 100)%Z ->
  fst (get_tag_value (snd (_attack_stop_all c self)) tag) = Ok (VBool false).
Proof.
  intros Hsized Hok Hnamed Hreg Hrange. revert Hok. unfold _attack_stop_all.
  destruct Hnamed as [[-> Hin] | [-> Hin]]; cbn [String.eqb Ascii.eqb Bool.eqb];
    intros Hok.
  - apply (same_value_writes ["CMD_RUN"; "ACT_MOTOR"; "ACT_NOZZLE"] (VBool false)
             self Hsized Hok tag mapping Hreg Hrange). by left.
  - apply (same_value_writes
             ["ACT_FEED_PUMP"; "ACT_OUTLET_VALVE"; "ACT_SEP_VALVE"; "ACT_WASTE_VALVE"]
             (VBool false) self Hsized Hok tag mapping Hreg Hrange). by left.
Qed.

Lemma stop_all_pattern_reads_false_witness :
  fst (get_tag_value
         (snd (_attack_stop_all (config STOP_ALL "bottle" 60 1) Scenes.writable_bottle))
         "ACT_MOTOR") = Ok (VBool false).
Proof.
  apply (stop_all_pattern_reads_false Scenes.writable_bottle
           (config STOP_ALL "bottle" 60 1) "ACT_MOTOR"
           (Examples.mapping "BOOL" "COIL" 0 "Actuator")).
  - apply sized_create.
  - vm_compute. reflexivity.
  - left. split; [reflexivity|]. set_solver.
  - vm_compute. reflexivity.
  - cbn. lia.
Defined.

(** X22. The attack patterns that force a sensor do not get past it.  On a
    bridge none of whose [SENSOR_] tags is registered for a coil or a
    holding register, NeverStop on the bottle plant raises at its write to
    SENSOR_LIMIT_SWITCH and leaves the bridge as its first write, to
    CMD_RUN, left it: the motor and the nozzle are never forced.  On the
    refinery, NeverStop, ConstantRunning and RunNoSpill raise at their
    second write, after the write to ACT_FEED_PUMP. *)
Theorem sensor_forcing_patterns_abort (self : ModbusBridge) (c : AttackConfig) :
  (forall tag mapping,
      startswith tag "SENSOR_" = true ->
      tag_mappings self !! tag = Some mapping ->
      m_table mapping <> "COIL" /\ m_table mapping <> "HR") ->
  (target_plant c = "bottle" ->
   is_ok (fst (_attack_never_stop c self)) = false
   /\ snd (_attack_never_stop c self)
      = snd (set_tag_value self "CMD_RUN" (VBool true)))
  /\ (target_plant c = "refinery" ->
      forall pattern,
        pattern ∈ [_attack_never_stop; _attack_constant_running;
                   _attack_run_no_spill] ->
        is_ok (fst (pattern c self)) = false
        /\ snd (pattern c self)
           = snd (set_tag_value self "ACT_FEED_PUMP" (VBool true))).
Proof.
  intros Hsensors. split.
  - intros Hplant. unfold _attack_never_stop. rewrite Hplant.
    cbn [String.eqb Ascii.eqb Bool.eqb].
    apply second_write_refused. intros mapping. by apply Hsensors.
  - intros Hplant pattern Hin.
    apply elem_of_cons in Hin as [->|Hin];
      [|apply elem_of_cons in Hin as [->|Hin];
        [|apply elem_of_cons in Hin as [->|Hin]; [|by apply elem_of_nil in Hin]]].
    + unfold _attack_never_stop. rewrite Hplant. cbn [String.eqb Ascii.eqb Bool.eqb].
      apply second_write_refused. intros mapping. by apply Hsensors.
    + unfold _attack_constant_running. rewrite Hplant.
      cbn [String.eqb Ascii.eqb Bool.eqb].
      apply second_write_refused. intros mapping. by apply Hsensors.
    + unfold _attack_run_no_spill. rewrite Hplant.
      cbn [String.eqb Ascii.eqb Bool.eqb].
      apply second_write_refused. intros mapping. by apply Hsensors.
Qed.

Lemma sensor_forcing_patterns_abort_witness :
  let c := config NEVER_STOP "bottle" 30 1 in
  is_ok (fst (_attack_never_stop c Examples.bottle_bridge)) = false
  /\ snd (_attack_never_stop c Examples.bottle_bridge)
     = snd (set_tag_value Examples.bottle_bridge "CMD_RUN" (VBool true)).
Proof.
  assert (forall tag mapping,
             startswith tag "SENSOR_" = true ->
             tag_mappings Examples.bottle_bridge !! tag = Some mapping ->
             m_table mapping <> "COIL" /\ m_table mapping <> "HR") as Hsensors.
  { intros tag mapping Hstarts Hreg.
    unfold Examples.bottle_bridge in Hreg. cbn [tag_mappings] in Hreg.
    apply elem_of_list_to_map_2 in Hreg.
    repeat (apply elem_of_cons in Hreg as [Hreg|Hreg];
            [injection Hreg as -> ->;
             first [ split; discriminate | vm_compute in Hstarts; discriminate ]|]).
    by apply elem_of_nil in Hreg. }
  exact (proj1 (sensor_forcing_patterns_abort Examples.bottle_bridge
                  (config NEVER_STOP "bottle" 30 1) Hsensors) eq_refl).
Defined.

Section Registry.

Implicit Types (self : AttackInjector) (id : string) (c : AttackConfig).

Lemma stop_attack_active self id :
  active_attacks (stop_attack self id) = delete id (active_attacks self)
  /\ attack_threads (stop_attack self id) = attack_threads self.
Proof.
  unfold stop_attack. destruct (active_attacks self !! id) eqn:Hid; [done|].
  split; [|done]. apply map_eq. intros k.
  destruct (decide (k = id)) as [->|Hne].
  - by rewrite lookup_delete_eq.
  - by rewrite lookup_delete_ne.
Qed.

Lemma fold_stop_attack (ids : list string) self :
  attack_threads (fold_left stop_attack ids self) = attack_threads self
  /\ forall id,
       active_attacks (fold_left stop_attack ids self) !! id
       = if decide (id ∈ ids) then None else active_attacks self !! id.
Proof.
  revert self. induction ids as [|head rest IH]; intros self.
  { split; [done|]. intros id. by rewrite decide_False by apply not_elem_of_nil. }
  cbn [fold_left]. destruct (IH (stop_attack self head)) as [Hthreads Hactive].
  destruct (stop_attack_active self head) as [Hdeleted Hsame].
  split; [by rewrite Hthreads|]. intros id. rewrite Hactive, Hdeleted.
  destruct (decide (id ∈ rest)) as [Hin|Hout].
  - by rewrite decide_True by (by right).
  - destruct (decide (id = head)) as [->|Hne].
    + rewrite decide_True by (by left). apply lookup_delete_eq.
    + rewrite decide_False by (by intros [?|?]%elem_of_cons).
      by apply lookup_delete_ne.
Qed.

(** The second of two attacks of one type that are started in the same
    second is refused, unless the worker of the first has ended in
    between. *)
Lemma start_each_same_type self c1 c2 (clock : nat -> Z)
  (ended : nat -> gset string) :
  attack_type c1 = attack_type c2 ->
  clock 1%nat = clock 0%nat ->
  attack_id c1 (clock 0%nat) ∉ ended 1%nat ->
  exists c,
    fst (start_each self [c1; c2] clock ended 0 [])
    = Failed (AlreadyRunning (attack_id c1 (clock 0%nat)))
    /\ active_attacks (snd (start_each self [c1; c2] clock ended 0 []))
       !! attack_id c1 (clock 0%nat) = Some c.
Proof.
  intros Htype Hclock Halive.
  remember (start_each self [c1; c2] clock ended 0 []) as r eqn:Hr.
  cbn [start_each] in Hr. unfold start_attack at 1 in Hr.
  destruct (active_attacks (reap self (ended 0%nat)) !! attack_id c1 (clock 0%nat))
    as [c|] eqn:Hfirst.
  { subst r. exists c. by split. }
  unfold start_attack at 1 in Hr.
  assert (attack_id c2 (clock 1%nat) = attack_id c1 (clock 0%nat)) as Hid
    by (unfold attack_id; by rewrite Htype, Hclock).
  rewrite Hid in Hr.
  assert (active_attacks
            (reap {| active_attacks :=
                       <[attack_id c1 (clock 0%nat) := c1]>
                         (active_attacks (reap self (ended 0%nat)));
                     attack_threads :=
                       {[attack_id c1 (clock 0%nat)]}
                       ∪ attack_threads (reap self (ended 0%nat)) |}
                  (ended 1%nat))
          !! attack_id c1 (clock 0%nat) = Some c1) as Hsecond.
  { cbn [reap active_attacks]. apply map_lookup_filter_Some.
    split; [apply lookup_insert_eq | done]. }
  rewrite Hsecond in Hr. subst r. exists c1. by split.
Qed.

End Registry.

(** X23. Stopping all attacks.  After [stop_all_attacks] no attack is
    active, so [list_attacks] returns the empty dict, while
    [attack_threads] keeps every entry it had: no call removes a thread
    from it. *)
Theorem stop_all_attacks_empties_the_registry (self : AttackInjector) :
  list_attacks (stop_all_attacks self) = ∅
  /\ attack_threads (stop_all_attacks self) = attack_threads self.
Proof.
  unfold stop_all_attacks, list_attacks.
  destruct (fold_stop_attack (map fst (map_to_list (active_attacks self))) self)
    as [Hthreads Hactive].
  split; [|done]. apply map_eq. intros id. rewrite Hactive, lookup_empty.
  destruct (decide _) as [_|Hout]; [done|].
  destruct (active_attacks self !! id) as [c|] eqn:Hid; [|done].
  exfalso. apply Hout. apply list_elem_of_In, in_map_iff. exists (id, c).
  split; [done|]. apply list_elem_of_In. by apply elem_of_map_to_list.
Qed.

(** X24. Starting, stopping and starting again.  The id of an attack is
    its type and the second of the clock.  When [start_attack] succeeds the
    attack is listed under the id it returns; a second [start_attack] of
    the same type in the same second raises "already running", whatever its
    target plant; and [stop_attack] on the id puts [active_attacks] back as
    it was, after which the same attack can be started in the same second
    again. *)
Theorem start_stop_start
  (self self' : AttackInjector) (c c' : AttackConfig) (now : Z) (id : string) :
  start_attack self c now = (Done id, self') ->
  list_attacks self' !! id = Some c
  /\ (attack_type c' = attack_type c ->
      start_attack self' c' now = (Failed (AlreadyRunning id), self'))
  /\ active_attacks (stop_attack self' id) = active_attacks self
  /\ fst (start_attack (stop_attack self' id) c now) = Done id.
Proof.
  unfold start_attack at 1.
  destruct (active_attacks self !! attack_id c now) eqn:Hfree; [done|].
  intros [= <- <-]. cbn [list_attacks active_attacks].
  split; [apply lookup_insert_eq|]. split.
  - intros Htype. unfold start_attack.
    assert (attack_id c' now = attack_id c now) as ->
      by (unfold attack_id; by rewrite Htype).
    cbn [active_attacks]. by rewrite lookup_insert_eq.
  - destruct (stop_attack_active
                {| active_attacks := <[attack_id c now := c]> (active_attacks self);
                   attack_threads := {[attack_id c now]} ∪ attack_threads self |}
                (attack_id c now)) as [Hdeleted _].
    cbn [active_attacks] in Hdeleted.
    assert (delete (attack_id c now) (<[attack_id c now := c]> (active_attacks self))
            = active_attacks self) as Hback.
    { apply map_eq. intros k. destruct (decide (k = attack_id c now)) as [->|Hne].
      - by rewrite lookup_delete_eq.
      - by rewrite lookup_delete_ne, lookup_insert_ne. }
    rewrite Hdeleted, Hback. split; [done|].
    unfold start_attack. by rewrite Hdeleted, Hback, Hfree.
Qed.

Lemma start_stop_start_witness :
  let self' := snd (start_attack new_injector (config STOP_ALL "bottle" 60 1) 1700000000) in
  list_attacks self' !! "stop_all_1700000000" = Some (config STOP_ALL "bottle" 60 1)
  /\ (attack_type (config STOP_ALL "refinery" 5 1)
      = attack_type (config STOP_ALL "bottle" 60 1) ->
      start_attack self' (config STOP_ALL "refinery" 5 1) 1700000000
      = (Failed (AlreadyRunning "stop_all_1700000000"), self'))
  /\ active_attacks (stop_attack self' "stop_all_1700000000")
     = active_attacks new_injector
  /\ fst (start_attack (stop_attack self' "stop_all_1700000000")
            (config STOP_ALL "bottle" 60 1) 1700000000)
     = Done "stop_all_1700000000".
Proof.
  apply (start_stop_start new_injector
           (snd (start_attack new_injector (config STOP_ALL "bottle" 60 1) 1700000000))
           (config STOP_ALL "bottle" 60 1) (config STOP_ALL "refinery" 5 1)
           1700000000 "stop_all_1700000000").
  vm_compute. reflexivity.
Defined.

(** X25. The scenarios that start two attacks of one type.  The scenarios
    "sensor_manipulation", "actuator_chaos" and "random_chaos" each start
    the same attack type on the bottle plant and on the refinery.  When
    the clock shows the same second at both [start_attack] calls and the
    worker of the first attack has not ended in between, [run_scenario]
    raises "already running" for the id of the first attack and returns no
    ids, and that attack stays active. *)
Theorem one_type_scenarios_collide
  (self : AttackInjector) (scenario_name : string) (clock : nat -> Z)
  (ended : nat -> gset string) :
  scenario_name ∈ ["sensor_manipulation"; "actuator_chaos"; "random_chaos"] ->
  clock 1%nat = clock 0%nat ->
  (forall c, attack_id c (clock 0%nat) ∉ ended 1%nat) ->
  exists id c,
    fst (run_scenario self scenario_name clock ended) = Failed (AlreadyRunning id)
    /\ active_attacks (snd (run_scenario self scenario_name clock ended)) !! id
       = Some c.
Proof.
  intros Hname Hclock Halive.
  apply elem_of_cons in Hname as [->|Hname];
    [|apply elem_of_cons in Hname as [->|Hname];
      [|apply elem_of_cons in Hname as [->|Hname]; [|by apply elem_of_nil in Hname]]].
  - destruct (start_each_same_type self (config SENSOR_SPOOFING "bottle" 60.0 0.8)
                (config SENSOR_SPOOFING "refinery" 60.0 0.8) clock ended
                eq_refl Hclock (Halive _)) as (c & Hfailed & Hactive).
    eexists _, c. split; [exact Hfailed | exact Hactive].
  - destruct (start_each_same_type self (config ACTUATOR_OVERRIDE "bottle" 40.0 0.6)
                (config ACTUATOR_OVERRIDE "refinery" 40.0 0.6) clock ended
                eq_refl Hclock (Halive _)) as (c & Hfailed & Hactive).
    eexists _, c. split; [exact Hfailed | exact Hactive].
  - destruct (start_each_same_type self (config RANDOM_NOISE "bottle" 30.0 0.3)
                (config RANDOM_NOISE "refinery" 30.0 0.3) clock ended
                eq_refl Hclock (Halive _)) as (c & Hfailed & Hactive).
    eexists _, c. split; [exact Hfailed | exact Hactive].
Qed.

Lemma one_type_scenarios_collide_witness :
  exists id c,
    fst (run_scenario new_injector "sensor_manipulation"
           (fun _ => 1700000000%Z) (fun _ => ∅))
    = Failed (AlreadyRunning id)
    /\ active_attacks
         (snd (run_scenario new_injector "sensor_manipulation"
                 (fun _ => 1700000000%Z) (fun _ => ∅))) !! id
       = Some c.
Proof.
  apply (one_type_scenarios_collide new_injector "sensor_manipulation"
           (fun _ => 1700000000%Z) (fun _ => ∅)).
  - set_solver.
  - reflexivity.
  - intros c. apply not_elem_of_empty.
Defined.

(* ===================================================================== *)
(** * From the validator to the bridge                                   *)
(* ===================================================================== *)

Section ValidatedMaps.

Variable py_int : string -> option Z.
Variable py_int16 : string -> option Z.
Variable policy : Policy.

(** Every entry of the catalog was there before or comes from a row. *)
Lemma load_rows_from_row (mappings : gmap string Mapping) (rows : list Row)
  (mappings' : gmap string Mapping) (name : string) (mapping : Mapping) :
  Bridge.load_rows py_int mappings rows = Ok mappings' ->
  mappings' !! name = Some mapping ->
  mappings !! name = Some mapping
  \/ exists row, row ∈ rows /\ row !! "name" = Some name
                 /\ describes py_int row mapping.
Proof.
  revert mappings. induction rows as [|row rest IH]; intros mappings; simpl.
  { intros [= <-]. by left. }
  destruct (Bridge.load_row py_int mappings row) as [mappings1|] eqn:Hrow; [|done].
  simpl. intros Hrest Hreg.
  destruct (IH mappings1 Hrest Hreg) as [Hold | (r & Hin & Hname & Hdescribes)].
  - apply load_row_inv in Hrow as (name' & mapping' & Hname & -> & Hdescribes & _).
    apply lookup_insert_Some in Hold as [[-> ->] | [_ Hold]]; [right | by left].
    exists row. split; [by left | done].
  - right. exists r. split; [by right | done].
Qed.

(** The rows of a map that the validator calls valid pass the row
    checks. *)
Lemma valid_rows_pass (csv_files : gmap string (list Row)) (map_file : string)
  (tags : list Row) (report : Report) :
  csv_files !! map_file = Some tags ->
  validate_modbus_map py_int py_int16 policy csv_files map_file = Ok report ->
  valid report = true ->
  Forall (row_passes py_int py_int16 policy) tags.
Proof.
  intros Hfile. unfold validate_modbus_map. rewrite Hfile.
  destruct tags as [|first rest]; [done|].
  set (start := Build_checks _ _ _).
  set (final := check_tags py_int py_int16 policy start 1 (first :: rest)).
  intros [= <-]. cbn [valid errors].
  intros Hclean%bool_decide_eq_true_1%nil_length_inv.
  by apply (check_tags_clean_iff py_int py_int16 policy (first :: rest) start 1)
    in Hclean as (_ & Hrows & _).
Qed.

End ValidatedMaps.


(** A string starts with one of two prefixes that differ in their first
    character at most. *)
Lemma startswith_other_head (name : string) (a b : ascii) (p q : string) :
  a <> b ->
  startswith name (String a p) = true ->
  startswith name (String b q) = false.
Proof.
  intros Hne. unfold startswith. destruct name as [|c name]; [done|].
  cbn [String.prefix].
  destruct (Ascii.ascii_dec a c) as [<-|]; [|done].
  by destruct (Ascii.ascii_dec b a) as [->|].
Qed.

